(** * llama_index: document chunking and the retriever query engine

    A shallow embedding of
      - [llama_index/node_parser/node_utils.py]
        ([get_text_splits_from_document], [get_nodes_from_document]) and
      - [llama_index/query_engine/retriever_query_engine.py]
        ([RetrieverQueryEngine]),
    together with the properties their specification states about them.

    Python dictionaries are objects with identity: binding a name to
    [document.metadata] aliases the dictionary, and [dict.update] changes it
    in place for every holder.  Metadata dictionaries therefore live in a
    store indexed by references, and the two functions of [node_utils.py] are
    state transformers over that store.  Exceptions are a second kind of
    outcome of a call; the store survives them. *)

From Stdlib Require Import ZArith String.
From stdpp Require Import base option list gmap strings.

Open Scope Z_scope.

(** ** Outcomes, and state transformers that may raise *)

Inductive PyExn : Type :=
| ValueError (msg : string)
| UpstreamFailure (who : string).

Inductive outcome (A : Type) : Type :=
| Returned (a : A)
| Raised (e : PyExn).
Arguments Returned {A} a.
Arguments Raised {A} e.

Definition Py (S A : Type) : Type := S -> outcome A * S.

Definition ret {S A} (a : A) : Py S A := fun s => (Returned a, s).

Definition bind {S A B} (m : Py S A) (k : A -> Py S B) : Py S B :=
  fun s =>
    match m s with
    | (Returned a, s') => k a s'
    | (Raised e, s') => (Raised e, s')
    end.

Definition raise {S A} (e : PyExn) : Py S A := fun s => (Raised e, s).
Definition get_state {S} : Py S S := fun s => (Returned s, s).
Definition put_state {S} (s : S) : Py S unit := fun _ => (Returned tt, s).

Notation "'let!' x ':=' m 'in' k" := (bind m (fun x => k))
  (at level 10, x name, m at level 100, k at level 200).
Notation "'run!' m 'in' k" := (bind m (fun _ => k))
  (at level 10, m at level 100, k at level 200).

(** ** The store of dictionaries *)

(** Values of a metadata mapping ([Dict[str, Any]]); only their equality
    matters here. *)
Inductive pyval : Type :=
| PyStr (s : string)
| PyInt (z : Z)
| PyNone.

Abbreviation dict := (gmap string pyval).
Abbreviation ref := positive.
Abbreviation store := (gmap ref dict).

(** The dictionary a reference denotes. *)
Definition deref (σ : store) (r : ref) : dict := default ∅ (σ !! r).

(** [{}]: a new dictionary object, distinct from every allocated one. *)
Definition new_dict : Py store ref :=
  fun σ => let r := fresh (dom σ) in (Returned r, <[r := ∅]> σ).

(** [target.update(source)]: the entries of [source] are written into
    [target], replacing the entries [target] has under the same keys. *)
Definition dict_update (target source : ref) : Py store unit :=
  fun σ => (Returned tt, <[target := deref σ source ∪ deref σ target]> σ).

(** Truth value of a dictionary: non-empty. *)
Definition truthy (d : dict) : bool := bool_decide (d ≠ ∅).

(** ** Data model *)

(** The class of the [document] argument, as the two [isinstance] tests of
    [get_nodes_from_document] see it.  [ImageDocument] is a subclass of
    [Document]; every other [BaseNode] is [OtherBaseNode]. *)
Inductive DocumentClass : Type :=
| ImageDocument
| Document
| OtherBaseNode.

Global Instance DocumentClass_eq_dec : EqDecision DocumentClass.
Proof. solve_decision. Defined.

(** Embedding vectors and image payloads are copied, never inspected. *)
Abbreviation Embedding := (list Z).

(** Python [str]: one [ascii] per character, so that [len] is
    [String.length]. *)
Definition len (s : string) : Z := Z.of_nat (String.length s).

(** Modelled from the spec: the document classes are declared in
    [llama_index.schema], which is not part of the sources at hand.  The
    fields are the attributes the two functions read; [doc_metadata] is a
    reference, since [document.metadata] is the dictionary object itself. *)
Record BaseNode : Type := mkBaseNode {
  doc_class : DocumentClass;
  doc_id : string;
  doc_text : string;
  doc_metadata : ref;
  doc_embedding : option Embedding;
  doc_image : option string;
  doc_excluded_embed_metadata_keys : list string;
  doc_excluded_llm_metadata_keys : list string;
  doc_metadata_seperator : string;
  doc_text_template : string
}.

(** Modelled from the spec: [TextSplit] is declared in
    [llama_index.langchain_helpers.text_splitter], not part of the sources
    at hand: a chunk of text, optional metadata (a dictionary object) and an
    optional count of characters shared with the previous chunk.  Distinct
    entries of a list of splits are taken to be distinct objects. *)
Record TextSplit : Type := mkTextSplit {
  text_chunk : string;
  metadata : option ref;
  num_char_overlap : option Z
}.

(** What [text_splitter.split_text] may return for one chunk, as the
    [isinstance] chain of [get_text_splits_from_document] distinguishes it. *)
Inductive Chunk : Type :=
| ChunkTextSplit (ts : TextSplit)
| ChunkDocument (d : BaseNode)
| ChunkStr (s : string).

(** Modelled from the spec: the splitting capability.  The first test of
    [get_text_splits_from_document] separates [TokenTextSplitter] (with
    [split_text_with_overlaps (text, metadata_str)]) from every other
    splitter (with [split_text (text)]).  The dictionaries that returned
    chunks refer to are in the store the call is made in. *)
Inductive TextSplitter : Type :=
| TokenTextSplitter
    (split_text_with_overlaps : string -> option string -> list TextSplit)
| PlainTextSplitter (split_text : string -> list Chunk).

(** Modelled from the spec: the relationship kinds of
    [llama_index.schema]; the builder uses the first three. *)
Inductive NodeRelationship : Type :=
| SOURCE
| PREVIOUS
| NEXT
| PARENT
| CHILD.

Global Instance NodeRelationship_eq_dec : EqDecision NodeRelationship.
Proof. solve_decision. Defined.

Definition NodeRelationship_code (k : NodeRelationship) : nat :=
  match k with
  | SOURCE => 0 | PREVIOUS => 1 | NEXT => 2 | PARENT => 3 | CHILD => 4
  end%nat.

Definition NodeRelationship_of_code (n : nat) : option NodeRelationship :=
  match n with
  | 0 => Some SOURCE | 1 => Some PREVIOUS | 2 => Some NEXT
  | 3 => Some PARENT | 4 => Some CHILD | _ => None
  end%nat.

Global Instance NodeRelationship_countable : Countable NodeRelationship.
Proof.
  apply (inj_countable NodeRelationship_code NodeRelationship_of_code).
  by intros [].
Defined.

(** Modelled from the spec: [RelatedNodeInfo] and [as_related_node_info]
    are declared in [llama_index.schema], which is not part of the sources
    at hand; the specification describes the result as a lightweight
    reference, an identifier together with a snapshot of the referenced
    object's metadata. *)
Record RelatedNodeInfo : Type := mkRelatedNodeInfo {
  node_id : string;
  info_metadata : dict
}.

Inductive NodeClass : Type :=
| TextNode
| ImageNode.

(** Modelled from the spec: the node classes are declared in
    [llama_index.schema], not part of the sources at hand.  The fields are
    the constructor arguments of lines 103-129.  The constructor validates
    the [metadata] argument into a mapping of the node's own, so a node
    holds the contents the dictionary had when the node was built. *)
Record Node : Type := mkNode {
  node_class : NodeClass;
  id_ : string;
  text : string;
  embedding : option Embedding;
  start_char_idx : option Z;
  end_char_idx : option Z;
  node_metadata : dict;
  image : option string;
  excluded_embed_metadata_keys : list string;
  excluded_llm_metadata_keys : list string;
  metadata_seperator : string;
  text_template : string;
  relationships : gmap NodeRelationship RelatedNodeInfo
}.

Definition set_relationship (k : NodeRelationship) (info : RelatedNodeInfo)
    (n : Node) : Node :=
  mkNode (node_class n) (id_ n) (text n) (embedding n) (start_char_idx n)
    (end_char_idx n) (node_metadata n) (image n)
    (excluded_embed_metadata_keys n) (excluded_llm_metadata_keys n)
    (metadata_seperator n) (text_template n)
    (<[k := info]> (relationships n)).

Definition with_metadata (ts : TextSplit) (m : ref) : TextSplit :=
  mkTextSplit (text_chunk ts) (Some m) (num_char_overlap ts).

(** ** [node_utils.py] *)

Module NodeUtils.
Section WithSchema.

(** Parts of [llama_index.schema] the two functions call and that are not
    in the sources at hand, taken as parameters: the rendering of a
    document's metadata, the identifier a newly constructed node receives
    (the [k]-th node constructed by a call gets [new_node_id k]), and the
    field defaults of [ImageNode], whose constructor call does not pass
    them. *)
Record Schema : Type := mkSchema {
  get_metadata_str : BaseNode -> dict -> string;
  new_node_id : nat -> string;
  default_metadata_seperator : string;
  default_text_template : string
}.

Variable schema : Schema.

(** [document.get_content ()], with and without
    [metadata_mode=MetadataMode.NONE]: the raw text. *)
Definition get_content (document : BaseNode) : string := doc_text document.

Definition document_as_related_node_info (document : BaseNode)
    : Py store RelatedNodeInfo :=
  let! σ := get_state in
  ret (mkRelatedNodeInfo (doc_id document)
                         (deref σ (doc_metadata document))).

Definition as_related_node_info (n : Node) : RelatedNodeInfo :=
  mkRelatedNodeInfo (id_ n) (node_metadata n).

(** Lines 43-56: one chunk of [split_text] as a [TextSplit]. *)
Definition text_split_of_chunk (text_chunk : Chunk) : TextSplit :=
  match text_chunk with
  | ChunkTextSplit ts => ts
  | ChunkDocument doc_chunk =>
      mkTextSplit (doc_text doc_chunk) (Some (doc_metadata doc_chunk)) None
  | ChunkStr s => mkTextSplit s None None
  end.

(** Lines 58-64: the document's metadata is written into the split's
    dictionary, which is created first when the split has none. *)
Definition combine_with_document_metadata (document : BaseNode)
    (include_metadata : bool) (text_split : TextSplit)
    : Py store TextSplit :=
  let! σ := get_state in
  if include_metadata && truthy (deref σ (doc_metadata document)) then
    match metadata text_split with
    | None =>
        let! m := new_dict in
        run! dict_update m (doc_metadata document) in
        ret (with_metadata text_split m)
    | Some m =>
        run! dict_update m (doc_metadata document) in
        ret text_split
    end
  else ret text_split.

(** Lines 42-66: the loop over [text_chunks]. *)
Fixpoint text_splits_loop (document : BaseNode) (include_metadata : bool)
    (text_chunks : list Chunk) (text_splits : list TextSplit)
    : Py store (list TextSplit) :=
  match text_chunks with
  | [] => ret text_splits
  | text_chunk :: rest =>
      let! text_split :=
        combine_with_document_metadata document include_metadata
          (text_split_of_chunk text_chunk) in
      text_splits_loop document include_metadata rest
        (text_splits ++ [text_split])
  end.

Definition get_text_splits_from_document (document : BaseNode)
    (text_splitter : TextSplitter) (include_metadata : bool)
    : Py store (list TextSplit) :=
  match text_splitter with
  | TokenTextSplitter split_text_with_overlaps =>
      let! σ := get_state in
      ret (split_text_with_overlaps (get_content document)
             (if include_metadata
              then Some (get_metadata_str schema document
                           (deref σ (doc_metadata document)))
              else None))
  | PlainTextSplitter split_text =>
      text_splits_loop document include_metadata
        (split_text (get_content document)) []
  end.

(** Lines 96-100.  [node_metadata = document.metadata] binds the name to
    the document's own dictionary, so [node_metadata.update] writes into
    it; the result is what the node constructor then reads. *)
Definition compute_node_metadata (document : BaseNode)
    (include_metadata : bool) (text_split : TextSplit) : Py store dict :=
  if include_metadata then
    let node_metadata := doc_metadata document in
    run! match metadata text_split with
         | Some m => dict_update node_metadata m
         | None => ret tt
         end in
    let! σ := get_state in
    ret (deref σ node_metadata)
  else ret ∅.

(** Lines 87-132: the body of the loop over [text_splits], for the split
    that becomes node number [position]: the advanced [index_counter] and
    the node that is appended, or the [ValueError]. *)
Definition nodes_loop_body (document : BaseNode) (include_metadata : bool)
    (index_counter : Z) (position : nat) (text_split : TextSplit)
    : Py store (Z * Node) :=
  let text_chunk := text_chunk text_split in
  let start_char_idx :=
    match num_char_overlap text_split with
    | Some k => Some (index_counter - k)
    | None => None
    end in
  let end_char_idx :=
    match num_char_overlap text_split with
    | Some k => Some (index_counter - k + len text_chunk)
    | None => None
    end in
  let index_counter := index_counter + (len text_chunk + 1) in
  let! node_metadata :=
    compute_node_metadata document include_metadata text_split in
  match doc_class document with
  | ImageDocument =>
      let! source := document_as_related_node_info document in
      let image_node :=
        mkNode ImageNode (new_node_id schema position) text_chunk
          (doc_embedding document) start_char_idx end_char_idx
          node_metadata (doc_image document) [] []
          (default_metadata_seperator schema) (default_text_template schema)
          {[ SOURCE := source ]} in
      ret (index_counter, image_node)
  | Document =>
      let! source := document_as_related_node_info document in
      let node :=
        mkNode TextNode (new_node_id schema position) text_chunk
          (doc_embedding document) start_char_idx end_char_idx
          node_metadata None
          (doc_excluded_embed_metadata_keys document)
          (doc_excluded_llm_metadata_keys document)
          (doc_metadata_seperator document)
          (doc_text_template document)
          {[ SOURCE := source ]} in
      ret (index_counter, node)
  | OtherBaseNode => raise (ValueError "Unknown document type")
  end.

(** Lines 84-132: [nodes] grows by one node per split; an exception leaves
    the loop at once. *)
Fixpoint nodes_loop (document : BaseNode) (include_metadata : bool)
    (text_splits : list TextSplit) (index_counter : Z) (nodes : list Node)
    : Py store (list Node) :=
  match text_splits with
  | [] => ret nodes
  | text_split :: rest =>
      let! step :=
        nodes_loop_body document include_metadata index_counter
          (length nodes) text_split in
      nodes_loop document include_metadata rest step.1 (nodes ++ [step.2])
  end.

(** Lines 137-144: the two assignments to [node.relationships], for the
    node at index [i] of [nodes]. *)
Definition link_node (nodes : list Node) (i : nat) (node : Node) : Node :=
  let node :=
    if bool_decide (0 < i)%nat then
      match nodes !! (i - 1)%nat with
      | Some p => set_relationship PREVIOUS (as_related_node_info p) node
      | None => node
      end
    else node in
  if bool_decide (Z.of_nat i < Z.of_nat (length nodes) - 1) then
    match nodes !! (i + 1)%nat with
    | Some n => set_relationship NEXT (as_related_node_info n) node
    | None => node
    end
  else node.

(** One iteration of the pass over [enumerate (nodes)]: the node object at
    index [i] is changed in place. *)
Definition link_step (nodes : list Node) (i : nat) : list Node :=
  match nodes !! i with
  | None => nodes
  | Some node => <[i := link_node nodes i node]> nodes
  end.

Definition link_pass (nodes : list Node) : list Node :=
  foldl link_step nodes (seq 0 (length nodes)).

Definition get_nodes_from_document (document : BaseNode)
    (text_splitter : TextSplitter) (include_metadata : bool)
    (include_prev_next_rel : bool) : Py store (list Node) :=
  let! text_splits :=
    get_text_splits_from_document document text_splitter include_metadata in
  let! nodes := nodes_loop document include_metadata text_splits 0 [] in
  if include_prev_next_rel then ret (link_pass nodes) else ret nodes.

End WithSchema.
End NodeUtils.

(** ** [retriever_query_engine.py] *)

Module QueryEngine.
Set Implicit Arguments.
Section WithTypes.

(** Scored nodes and responses are opaque to the engine: it passes them
    on and never looks inside. *)
Variable NodeWithScore : Type.
Variable Response : Type.

(** Modelled from the spec: the query context of
    [llama_index.indices.query.schema], read-only to the engine. *)
Record QueryBundle : Type := mkQueryBundle {
  query_str : string;
  custom_embedding_strs : option (list string)
}.

(** *** The injected capabilities

    A call to a capability returns a value or raises; the engine catches
    nothing.  The suspendable operations are awaited at once where they
    are called, so a coroutine run to completion is the sequence of its
    effects. *)

(** Modelled from the spec: the retriever capability, blocking and
    suspendable ([llama_index.indices.base_retriever]). *)
Record BaseRetriever : Type := mkRetriever {
  retriever_retrieve : QueryBundle -> outcome (list NodeWithScore);
  retriever_aretrieve : QueryBundle -> outcome (list NodeWithScore)
}.

(** Modelled from the spec: the synthesizer capability, blocking and
    suspendable ([llama_index.response_synthesizers]). *)
Record BaseSynthesizer : Type := mkSynthesizer {
  synthesizer_synthesize :
    QueryBundle -> list NodeWithScore -> option (list NodeWithScore)
    -> outcome Response;
  synthesizer_asynthesize :
    QueryBundle -> list NodeWithScore -> option (list NodeWithScore)
    -> outcome Response
}.

(** Modelled from the spec: a postprocessor maps scored nodes and the query
    to scored nodes ([llama_index.indices.postprocessor.types]). *)
Record BaseNodePostprocessor : Type := mkPostprocessor {
  postprocess_nodes :
    list NodeWithScore -> QueryBundle -> outcome (list NodeWithScore)
}.

(** *** The event sink

    The callback manager is observed through the calls the engine makes on
    it, in order.  [on_event_start] returns the correlation token; which
    token a manager hands out is its own business and may depend on all it
    has seen ([new_event_id]). *)

(** Modelled from the spec: the two event kinds this file uses
    ([llama_index.callbacks.schema]). *)
Inductive CBEventType : Type :=
| QUERY
| RETRIEVE.

(** Modelled from the spec: event payloads; the payload dictionaries of this
    file have one key each. *)
Inductive Payload : Type :=
| NoPayload
| QUERY_STR (s : string)
| NODES (nodes : list NodeWithScore)
| RESPONSE (r : Response).

Inductive SinkCall : Type :=
| EventStart (event_type : CBEventType) (payload : Payload)
             (returned_id : string)
| EventEnd (event_type : CBEventType) (payload : Payload)
           (event_id : string).

Abbreviation trace := (list SinkCall).

(** Modelled from the spec: the event sink capability
    ([llama_index.callbacks.base]), [on_event_start (kind, payload) -> token]
    and [on_event_end (kind, payload, token)]; events that the injected
    capabilities emit on their own account are not the engine's. *)
Record CallbackManager : Type := mkCallbackManager {
  new_event_id : trace -> CBEventType -> string
}.

Definition on_event_start (cm : CallbackManager) (event_type : CBEventType)
    (payload : Payload) : Py trace string :=
  fun tr =>
    let event_id := new_event_id cm tr event_type in
    (Returned event_id, tr ++ [EventStart event_type payload event_id]).

Definition on_event_end (cm : CallbackManager) (event_type : CBEventType)
    (payload : Payload) (event_id : string) : Py trace unit :=
  fun tr => (Returned tt, tr ++ [EventEnd event_type payload event_id]).

(** A call to an injected capability, inside the engine. *)
Definition call {A} (o : outcome A) : Py trace A := fun tr => (o, tr).

(** *** The engine *)
Record RetrieverQueryEngine : Type := mkEngine {
  _retriever : BaseRetriever;
  _response_synthesizer : BaseSynthesizer;
  _node_postprocessors : list BaseNodePostprocessor;
  callback_manager : CallbackManager
}.

(** [__init__], for an engine given its synthesizer:
    [node_postprocessors or []]. *)
Definition init (retriever : BaseRetriever)
    (response_synthesizer : BaseSynthesizer)
    (node_postprocessors : option (list BaseNodePostprocessor))
    (callback_manager : CallbackManager) : RetrieverQueryEngine :=
  mkEngine retriever response_synthesizer (default [] node_postprocessors)
    callback_manager.

(** Lines 110-114: the loop over [self._node_postprocessors]. *)
Fixpoint postprocessors_loop (node_postprocessors : list BaseNodePostprocessor)
    (nodes : list NodeWithScore) (query_bundle : QueryBundle)
    : Py trace (list NodeWithScore) :=
  match node_postprocessors with
  | [] => ret nodes
  | node_postprocessor :: rest =>
      let! nodes :=
        call (postprocess_nodes node_postprocessor nodes query_bundle) in
      postprocessors_loop rest nodes query_bundle
  end.

Definition _apply_node_postprocessors (self : RetrieverQueryEngine)
    (nodes : list NodeWithScore) (query_bundle : QueryBundle)
    : Py trace (list NodeWithScore) :=
  postprocessors_loop (_node_postprocessors self) nodes query_bundle.

Definition retrieve (self : RetrieverQueryEngine)
    (query_bundle : QueryBundle) : Py trace (list NodeWithScore) :=
  let! nodes := call (retriever_retrieve (_retriever self) query_bundle) in
  let! nodes := _apply_node_postprocessors self nodes query_bundle in
  ret nodes.

Definition aretrieve (self : RetrieverQueryEngine)
    (query_bundle : QueryBundle) : Py trace (list NodeWithScore) :=
  let! nodes := call (retriever_aretrieve (_retriever self) query_bundle) in
  let! nodes := _apply_node_postprocessors self nodes query_bundle in
  ret nodes.

Definition with_retriever (self : RetrieverQueryEngine)
    (retriever : BaseRetriever) : RetrieverQueryEngine :=
  mkEngine retriever (_response_synthesizer self)
    (_node_postprocessors self) (callback_manager self).

Definition synthesize (self : RetrieverQueryEngine)
    (query_bundle : QueryBundle) (nodes : list NodeWithScore)
    (additional_source_nodes : option (list NodeWithScore))
    : Py trace Response :=
  call (synthesizer_synthesize (_response_synthesizer self) query_bundle
          nodes additional_source_nodes).

Definition asynthesize (self : RetrieverQueryEngine)
    (query_bundle : QueryBundle) (nodes : list NodeWithScore)
    (additional_source_nodes : option (list NodeWithScore))
    : Py trace Response :=
  call (synthesizer_asynthesize (_response_synthesizer self) query_bundle
          nodes additional_source_nodes).

Definition _query (self : RetrieverQueryEngine)
    (query_bundle : QueryBundle) : Py trace Response :=
  let! query_id :=
    on_event_start (callback_manager self) QUERY
      (QUERY_STR (query_str query_bundle)) in
  let! retrieve_id :=
    on_event_start (callback_manager self) RETRIEVE NoPayload in
  let! nodes := retrieve self query_bundle in
  run! on_event_end (callback_manager self) RETRIEVE (NODES nodes)
         retrieve_id in
  let! response :=
    call (synthesizer_synthesize (_response_synthesizer self) query_bundle
            nodes None) in
  run! on_event_end (callback_manager self) QUERY (RESPONSE response)
         query_id in
  ret response.

Definition _aquery (self : RetrieverQueryEngine)
    (query_bundle : QueryBundle) : Py trace Response :=
  let! query_id :=
    on_event_start (callback_manager self) QUERY
      (QUERY_STR (query_str query_bundle)) in
  let! retrieve_id :=
    on_event_start (callback_manager self) RETRIEVE NoPayload in
  let! nodes := aretrieve self query_bundle in
  run! on_event_end (callback_manager self) RETRIEVE (NODES nodes)
         retrieve_id in
  let! response :=
    call (synthesizer_asynthesize (_response_synthesizer self) query_bundle
            nodes None) in
  run! on_event_end (callback_manager self) QUERY (RESPONSE response)
         query_id in
  ret response.

End WithTypes.
Arguments NoPayload {NodeWithScore Response}.
Arguments QUERY_STR {NodeWithScore Response} s.
Arguments NODES {NodeWithScore Response} nodes.
Arguments RESPONSE {NodeWithScore Response} r.
Unset Implicit Arguments.
End QueryEngine.

(** ** [retriever_query_engine.py]: construction *)

Module QueryEngineSetup.
Import QueryEngine.
Set Implicit Arguments.
Section WithTypes.

Variable NodeWithScore : Type.
Variable Response : Type.

(** Prompt templates are handed to the synthesizer factory unread. *)
Variable Prompt : Type.

(** Modelled from the spec: of the service context
    ([llama_index.indices.service_context]) [from_args] reads the callback
    manager and hands the rest on. *)
Record ServiceContext : Type := mkServiceContext {
  sc_callback_manager : CallbackManager NodeWithScore Response
}.

(** Modelled from the spec: the response-composition modes of
    [llama_index.response_synthesizers]. *)
Inductive ResponseMode : Type :=
| REFINE
| COMPACT
| SIMPLE_SUMMARIZE
| TREE_SUMMARIZE
| GENERATION
| NO_TEXT
| ACCUMULATE
| COMPACT_ACCUMULATE.

(** The keyword arguments [from_args] passes to
    [get_response_synthesizer] (lines 86-94). *)
Record SynthesizerArgs : Type := mkSynthesizerArgs {
  arg_service_context : option ServiceContext;
  arg_text_qa_template : option Prompt;
  arg_refine_template : option Prompt;
  arg_simple_template : option Prompt;
  arg_response_mode : ResponseMode;
  arg_use_async : bool;
  arg_streaming : bool
}.

(** Parts of the library [from_args] calls and that are not in the sources
    at hand, taken as parameters: the synthesizer factory and the manager
    [CallbackManager ([])] without handlers. *)
Variable get_response_synthesizer :
  SynthesizerArgs -> BaseSynthesizer NodeWithScore Response.
Variable empty_callback_manager : CallbackManager NodeWithScore Response.

(** Lines 49-105.  The defaults of the signature ([ResponseMode.COMPACT],
    no templates, [use_async] and [streaming] off) are the caller's to
    pass; the extra keyword arguments are not used. *)
Definition from_args (retriever : BaseRetriever NodeWithScore)
    (response_synthesizer : option (BaseSynthesizer NodeWithScore Response))
    (service_context : option ServiceContext)
    (node_postprocessors : option (list (BaseNodePostprocessor NodeWithScore)))
    (response_mode : ResponseMode)
    (text_qa_template refine_template simple_template : option Prompt)
    (use_async streaming : bool)
    : RetrieverQueryEngine NodeWithScore Response :=
  let response_synthesizer :=
    match response_synthesizer with
    | Some s => s
    | None =>
        get_response_synthesizer
          (mkSynthesizerArgs service_context text_qa_template
             refine_template simple_template response_mode use_async
             streaming)
    end in
  let callback_manager :=
    match service_context with
    | Some sc => sc_callback_manager sc
    | None => empty_callback_manager
    end in
  init retriever response_synthesizer node_postprocessors callback_manager.

(** Lines 214-217: the [retriever] property. *)
Definition retriever (self : RetrieverQueryEngine NodeWithScore Response)
    : BaseRetriever NodeWithScore :=
  _retriever self.

End WithTypes.
Unset Implicit Arguments.
End QueryEngineSetup.

(** * Specification vocabulary

    The notions the statements below are written in: the chain of
    postprocessors as a fold, the cursor and the store as the builder's loop
    leaves them after a number of splits, what it means for a node to be
    built from a split, and the chunks a splitter produces. *)

Section ChainVocabulary.
Import QueryEngine.
Context {NodeWithScore : Type}.

(** The chain as the specification words it: a left fold that hands each
    postprocessor the output of the one before it. *)
Definition then_postprocess (query_bundle : QueryBundle)
    (acc : outcome (list NodeWithScore))
    (p : BaseNodePostprocessor NodeWithScore)
    : outcome (list NodeWithScore) :=
  match acc with
  | Returned nodes => postprocess_nodes p nodes query_bundle
  | Raised e => Raised e
  end.

Definition chain_fold (ps : list (BaseNodePostprocessor NodeWithScore))
    (nodes : list NodeWithScore) (query_bundle : QueryBundle)
    : outcome (list NodeWithScore) :=
  foldl (then_postprocess query_bundle) (Returned nodes) ps.

End ChainVocabulary.

Section QueryVocabulary.
Import QueryEngine.
Context {NodeWithScore Response : Type}.

(** What the retrieval step yields: the retriever's nodes put through the
    engine's postprocessors, or the first exception on the way. *)
Definition retrieval_outcome
    (self : RetrieverQueryEngine NodeWithScore Response)
    (query_bundle : QueryBundle) : outcome (list NodeWithScore) :=
  match retriever_retrieve (_retriever self) query_bundle with
  | Returned raw => chain_fold (_node_postprocessors self) raw query_bundle
  | Raised e => Raised e
  end.

(** The calls [_query] makes on the sink when it starts from the trace
    [tr], by how far it gets. *)
Definition query_started (self : RetrieverQueryEngine NodeWithScore Response)
    (query_bundle : QueryBundle) (tr : list (SinkCall NodeWithScore Response))
    : list (SinkCall NodeWithScore Response) :=
  let query_id := new_event_id (callback_manager self) tr QUERY in
  let e1 := EventStart QUERY (QUERY_STR (query_str query_bundle)) query_id in
  [ e1;
    EventStart RETRIEVE NoPayload
      (new_event_id (callback_manager self) (tr ++ [e1]) RETRIEVE) ].

Definition query_retrieved
    (self : RetrieverQueryEngine NodeWithScore Response)
    (query_bundle : QueryBundle) (tr : list (SinkCall NodeWithScore Response))
    (nodes : list NodeWithScore) : list (SinkCall NodeWithScore Response) :=
  let query_id := new_event_id (callback_manager self) tr QUERY in
  let e1 := EventStart QUERY (QUERY_STR (query_str query_bundle)) query_id in
  query_started self query_bundle tr
  ++ [ EventEnd RETRIEVE (NODES nodes)
         (new_event_id (callback_manager self) (tr ++ [e1]) RETRIEVE) ].

Definition query_finished
    (self : RetrieverQueryEngine NodeWithScore Response)
    (query_bundle : QueryBundle) (tr : list (SinkCall NodeWithScore Response))
    (nodes : list NodeWithScore) (response : Response)
    : list (SinkCall NodeWithScore Response) :=
  query_retrieved self query_bundle tr nodes
  ++ [ EventEnd QUERY (RESPONSE response)
         (new_event_id (callback_manager self) tr QUERY) ].

End QueryVocabulary.

Section NodeUtilsVocabulary.
Import NodeUtils.

Variable schema : Schema.

(** The value of [index_counter] after the loop body has run on [done],
    starting from [c]. *)
Definition cursor_from (c : Z) (done : list TextSplit) : Z :=
  foldl (λ c ts, c + (len (text_chunk ts) + 1)) c done.

(** The store after the metadata step of the loop body has run on [done]. *)
Definition store_from (document : BaseNode) (include_metadata : bool)
    (σ : store) (done : list TextSplit) : store :=
  foldl (λ σ ts, (compute_node_metadata document include_metadata ts σ).2)
        σ done.

(** The node class that goes with a document class. *)
Definition node_class_for (c : DocumentClass) : NodeClass :=
  match c with
  | ImageDocument => ImageNode
  | _ => TextNode
  end.

(** What the loop body makes of a split: [n] is the node for [ts] when the
    cursor is [c], the node is number [k], and [σ'] is the store the
    metadata step leaves. *)
Definition node_built_from (document : BaseNode) (include_metadata : bool)
    (c : Z) (k : nat) (ts : TextSplit) (σ' : store) (n : Node) : Prop :=
  text n = text_chunk ts
  ∧ id_ n = new_node_id schema k
  ∧ start_char_idx n = (λ o, c - o) <$> num_char_overlap ts
  ∧ end_char_idx n = (λ o, c - o + len (text_chunk ts)) <$> num_char_overlap ts
  ∧ node_metadata n
    = (if include_metadata then deref σ' (doc_metadata document) else ∅)
  ∧ relationships n
    = {[ SOURCE := mkRelatedNodeInfo (doc_id document)
                     (deref σ' (doc_metadata document)) ]}
  ∧ node_class n = node_class_for (doc_class document)
  ∧ embedding n = doc_embedding document.

(** The pass up to (not including) index [k]. *)
Definition linked_below (nodes : list Node) (k : nat) : list Node :=
  imap (λ i n, if bool_decide (i < k)%nat then link_node nodes i n else n)
       nodes.

(** The text a chunk of [split_text] carries. *)
Definition chunk_text (c : Chunk) : string :=
  match c with
  | ChunkTextSplit ts => text_chunk ts
  | ChunkDocument d => doc_text d
  | ChunkStr s => s
  end.

(** The texts of the chunks the splitter produces for the document, in the
    order it produces them. *)
Definition produced_chunk_texts (document : BaseNode)
    (text_splitter : TextSplitter) (include_metadata : bool) (σ : store)
    : list string :=
  match text_splitter with
  | TokenTextSplitter split_text_with_overlaps =>
      text_chunk <$>
        split_text_with_overlaps (get_content document)
          (if include_metadata
           then Some (get_metadata_str schema document
                        (deref σ (doc_metadata document)))
           else None)
  | PlainTextSplitter split_text =>
      chunk_text <$> split_text (get_content document)
  end.

(** The metadata a chunk of [split_text] brings along. *)
Definition own_metadata (σ : store) (c : Chunk) : dict :=
  match metadata (text_split_of_chunk c) with
  | Some m => deref σ m
  | None => ∅
  end.

(** The dictionary behind [r] has received the document's metadata. *)
Definition merged (document : BaseNode) (σ0 σ : store) (r : ref) : Prop :=
  deref σ r = deref σ0 (doc_metadata document) ∪ deref σ0 r.

(** What every store of the extractor's loop satisfies: nothing is
    deallocated, and a dictionary is as it was at the start or has received
    the document's metadata. *)
Definition extractor_inv (document : BaseNode) (σ0 σ : store) : Prop :=
  dom σ0 ⊆ dom σ ∧ ∀ r, deref σ r = deref σ0 r ∨ merged document σ0 σ r.

End NodeUtilsVocabulary.

Section BuilderVocabulary.
Import NodeUtils.

Variable schema : Schema.

(** The document's dictionary once the metadata of the splits [done] has
    been written into it, one split after the other; [σ] is the store the
    builder's loop starts in.  A split whose dictionary is the document's
    own adds nothing. *)
Definition accumulated_metadata (document : BaseNode) (σ : store)
    (done : list TextSplit) : dict :=
  foldl (λ acc ts,
           match metadata ts with
           | Some m =>
               if decide (m = doc_metadata document) then acc
               else deref σ m ∪ acc
           | None => acc
           end)
        (deref σ (doc_metadata document)) done.

(** What a node takes over from its document, by the document's class. *)
Definition node_copies_document (document : BaseNode) (n : Node) : Prop :=
  embedding n = doc_embedding document
  ∧ match doc_class document with
    | ImageDocument =>
        node_class n = ImageNode
        ∧ image n = doc_image document
        ∧ excluded_embed_metadata_keys n = []
        ∧ excluded_llm_metadata_keys n = []
        ∧ metadata_seperator n = default_metadata_seperator schema
        ∧ text_template n = default_text_template schema
    | _ =>
        node_class n = TextNode
        ∧ image n = None
        ∧ excluded_embed_metadata_keys n
          = doc_excluded_embed_metadata_keys document
        ∧ excluded_llm_metadata_keys n
          = doc_excluded_llm_metadata_keys document
        ∧ metadata_seperator n = doc_metadata_seperator document
        ∧ text_template n = doc_text_template document
    end.

End BuilderVocabulary.

(** * Concrete inputs *)

Module Scenario.
Import NodeUtils.

(** Node identifiers ["0"], ["1"], ...; nothing is rendered. *)
Definition schema : Schema :=
  mkSchema (λ _ _, "") (λ k, String (Ascii.ascii_of_nat (48 + k)) "") "" "".

Definition source_only : dict := {[ "source" := PyStr "report" ]}.
Definition title_only : dict := {[ "title" := PyStr "Intro" ]}.
Definition page_only : dict := {[ "page" := PyInt 2 ]}.

(** Three dictionaries: the document's at reference 1, and one for each of
    the two fragments the splitter returns. *)
Definition σ0 : store :=
  <[3%positive := page_only]>
    (<[2%positive := title_only]> {[ 1%positive := source_only ]}).

Definition a_document (class : DocumentClass) (text : string) (m : ref)
    : BaseNode :=
  mkBaseNode class "doc-id" text m None None [] [] "" "".

(** [Document (text="Intro Body", metadata={"source": "report"})]. *)
Definition report : BaseNode := a_document Document "Intro Body" 1.

(** A splitter whose [split_text] returns two [Document] fragments,
    with metadata [{"title": "Intro"}] and [{"page": 2}]. *)
Definition fragments (_ : string) : list Chunk :=
  [ ChunkDocument (a_document Document "Intro" 2);
    ChunkDocument (a_document Document "Body" 3) ].

Definition by_fragment : TextSplitter := PlainTextSplitter fragments.

(** A [TextNode] handed in as the document, and a splitter that finds
    nothing to split. *)
Definition a_text_node : BaseNode := a_document OtherBaseNode "" 1.

(** The store once the extractor has written the report's metadata into the
    dictionaries of the two fragments. *)
Definition σ0_extracted : store :=
  <[3%positive := source_only ∪ page_only]>
    (<[2%positive := source_only ∪ title_only]> σ0).
Definition no_chunks : TextSplitter := PlainTextSplitter (λ _, []).

End Scenario.

Module QueryScenario.
Import QueryEngine.

(** Scored nodes are numbers and responses are strings here.  The retriever
    finds five nodes; the first postprocessor drops those below 3, the
    second reverses the rest; the sink numbers its events. *)
Definition five_nodes : BaseRetriever nat :=
  mkRetriever (λ _, Returned [1; 2; 3; 4; 5]%nat)
              (λ _, Returned [1; 2; 3; 4; 5]%nat).

Definition threshold : BaseNodePostprocessor nat :=
  mkPostprocessor (λ nodes _, Returned (filter (λ n, 3 ≤ n)%nat nodes)).

Definition rerank : BaseNodePostprocessor nat :=
  mkPostprocessor (λ nodes _, Returned (reverse nodes)).

Definition answering : BaseSynthesizer nat string :=
  mkSynthesizer (λ _ _ _, Returned "answer") (λ _ _ _, Returned "answer").

Definition numbering : CallbackManager nat string :=
  mkCallbackManager
    (λ tr _, String (Ascii.ascii_of_nat (48 + length tr)) "").

Definition engine : RetrieverQueryEngine nat string :=
  init five_nodes answering (Some [threshold; rerank]) numbering.

Definition a_query : QueryBundle := mkQueryBundle "why?" None.

(** An engine whose retriever is down. *)
Definition unreachable : BaseRetriever nat :=
  mkRetriever (λ _, Raised (UpstreamFailure "retriever"))
              (λ _, Raised (UpstreamFailure "retriever")).

Definition cut_off : RetrieverQueryEngine nat string :=
  with_retriever engine unreachable.

(** A postprocessor that is down. *)
Definition failing : BaseNodePostprocessor nat :=
  mkPostprocessor (λ _ _, Raised (UpstreamFailure "postprocessor")).

(** A service context with the numbering sink, and a factory that hands
    out the answering synthesizer whatever it is asked for. *)
Definition a_context : QueryEngineSetup.ServiceContext nat string :=
  QueryEngineSetup.mkServiceContext numbering.

Definition a_factory
    (_ : QueryEngineSetup.SynthesizerArgs nat string unit)
    : BaseSynthesizer nat string :=
  answering.

End QueryScenario.

(** * Properties of the retriever query engine *)

Section QueryEngineProperties.
Import QueryEngine.
Context {NodeWithScore Response : Type}.

Abbreviation Engine := (RetrieverQueryEngine NodeWithScore Response).
Abbreviation Trace := (list (SinkCall NodeWithScore Response)).

Lemma foldl_then_postprocess_raised qb e
    (ps : list (BaseNodePostprocessor NodeWithScore)) :
  foldl (then_postprocess qb) (Raised e) ps = Raised e.
Proof. induction ps as [|p ps IH]; [done | apply IH]. Qed.

Lemma postprocessors_loop_fold ps :
  ∀ nodes qb (tr : Trace),
    postprocessors_loop ps nodes qb tr = (chain_fold ps nodes qb, tr).
Proof.
  induction ps as [|p ps IH]; intros nodes qb tr; [done |].
  unfold chain_fold; cbn [postprocessors_loop foldl then_postprocess].
  unfold bind, call.
  destruct (postprocess_nodes p nodes qb) as [out | e].
  - apply IH.
  - by rewrite foldl_then_postprocess_raised.
Qed.

Lemma chain_fold_app (ps qs : list (BaseNodePostprocessor NodeWithScore))
    nodes qb :
  chain_fold (ps ++ qs) nodes qb
  = match chain_fold ps nodes qb with
    | Returned out => chain_fold qs out qb
    | Raised e => Raised e
    end.
Proof.
  unfold chain_fold. rewrite foldl_app.
  destruct (foldl (then_postprocess qb) (Returned nodes) ps) as [out | e];
    [done | apply foldl_then_postprocess_raised].
Qed.

(** The retrieval step calls nothing on the event sink, whatever comes
    back from the retriever and the postprocessors. *)
Lemma retrieve_silent (self : Engine) qb (tr : Trace) :
  retrieve self qb tr
  = (match retriever_retrieve (_retriever self) qb with
     | Returned raw => chain_fold (_node_postprocessors self) raw qb
     | Raised e => Raised e
     end, tr).
Proof.
  unfold retrieve, bind, call, _apply_node_postprocessors.
  destruct (retriever_retrieve (_retriever self) qb) as [raw | e]; [| done].
  rewrite postprocessors_loop_fold.
  by destruct (chain_fold (_node_postprocessors self) raw qb).
Qed.

Lemma aretrieve_silent (self : Engine) qb (tr : Trace) :
  aretrieve self qb tr
  = (match retriever_aretrieve (_retriever self) qb with
     | Returned raw => chain_fold (_node_postprocessors self) raw qb
     | Raised e => Raised e
     end, tr).
Proof.
  unfold aretrieve, bind, call, _apply_node_postprocessors.
  destruct (retriever_aretrieve (_retriever self) qb) as [raw | e]; [| done].
  rewrite postprocessors_loop_fold.
  by destruct (chain_fold (_node_postprocessors self) raw qb).
Qed.

(** C9.  The postprocessor chain is a left fold in registration order:
    applying the registered chain is [chain_fold]; the empty chain (also
    the one [init] installs when none is given) returns the nodes as they
    are; and the chain [[P1; P2]] is [P1] followed by [P2] on the output
    of [P1]. *)
Theorem postprocessor_chain_is_left_fold :
  ∀ (r : BaseRetriever NodeWithScore)
    (s : BaseSynthesizer NodeWithScore Response)
    (cm : CallbackManager NodeWithScore Response)
    (nodes : list NodeWithScore) (qb : QueryBundle) (tr : Trace),
    (∀ ps, _apply_node_postprocessors (mkEngine r s ps cm) nodes qb tr
           = (chain_fold ps nodes qb, tr))
    ∧ _apply_node_postprocessors (mkEngine r s [] cm) nodes qb tr
      = (Returned nodes, tr)
    ∧ _apply_node_postprocessors (init r s None cm) nodes qb tr
      = (Returned nodes, tr)
    ∧ (∀ P1 P2,
         _apply_node_postprocessors (mkEngine r s [P1; P2] cm) nodes qb tr
         = (let! out :=
              _apply_node_postprocessors (mkEngine r s [P1] cm) nodes qb in
            _apply_node_postprocessors (mkEngine r s [P2] cm) out qb) tr)
    ∧ (∀ ps qs,
         _apply_node_postprocessors (mkEngine r s (ps ++ qs) cm) nodes qb tr
         = (let! out :=
              _apply_node_postprocessors (mkEngine r s ps cm) nodes qb in
            _apply_node_postprocessors (mkEngine r s qs cm) out qb) tr).
Proof.
  intros r s cm nodes qb tr.
  assert (Happ : ∀ ps qs,
    _apply_node_postprocessors (mkEngine r s (ps ++ qs) cm) nodes qb tr
    = (let! out :=
         _apply_node_postprocessors (mkEngine r s ps cm) nodes qb in
       _apply_node_postprocessors (mkEngine r s qs cm) out qb) tr).
  { intros ps qs. unfold _apply_node_postprocessors, bind; simpl.
    rewrite !postprocessors_loop_fold, chain_fold_app.
    destruct (chain_fold ps nodes qb) as [out | e]; [| done].
    by rewrite postprocessors_loop_fold. }
  split_and!; try done.
  - intros ps. apply postprocessors_loop_fold.
  - intros P1 P2. apply (Happ [P1] [P2]).
Qed.

(** C6.  When retrieval yields [nodes] and the synthesizer answers
    [response], [_query] makes exactly four calls on the sink, in this
    order: QUERY start with the query string, RETRIEVE start, RETRIEVE end
    with [nodes] under the token the RETRIEVE start returned, QUERY end
    with [response] under the token the QUERY start returned; it returns
    [response].  The standalone [retrieve] returns the same [nodes] and
    leaves the sink untouched. *)
Theorem query_emits_four_events :
  ∀ (self : Engine) (qb : QueryBundle) (tr : Trace)
    (nodes : list NodeWithScore) (response : Response),
    (retrieve self qb tr).1 = Returned nodes →
    synthesizer_synthesize (_response_synthesizer self) qb nodes None
      = Returned response →
    let query_id := new_event_id (callback_manager self) tr QUERY in
    let e1 := EventStart QUERY (QUERY_STR (query_str qb)) query_id in
    let retrieve_id :=
      new_event_id (callback_manager self) (tr ++ [e1]) RETRIEVE in
    _query self qb tr
    = (Returned response,
       tr ++ [ e1;
               EventStart RETRIEVE NoPayload retrieve_id;
               EventEnd RETRIEVE (NODES nodes) retrieve_id;
               EventEnd QUERY (RESPONSE response) query_id ])
    ∧ retrieve self qb tr = (Returned nodes, tr).
Proof.
  intros self qb tr nodes response Hret Hsyn query_id e1 retrieve_id.
  assert (Hsilent : ∀ tr', retrieve self qb tr' = (Returned nodes, tr')).
  { intros tr'. rewrite retrieve_silent in Hret |- *. simpl in Hret.
    by rewrite Hret. }
  split; [| apply Hsilent].
  unfold _query, bind, on_event_start, on_event_end, call, ret.
  fold query_id e1 retrieve_id.
  rewrite Hsilent, Hsyn. f_equal.
  by rewrite <- !(assoc_L (++)).
Qed.

(** C7.  If the retriever's and the synthesizer's suspendable operations
    return what their blocking ones return, the suspendable paths are the
    blocking ones: same outcome (value or exception) and same calls on the
    sink, for the query and for the standalone retrieval. *)
Theorem blocking_and_suspendable_agree :
  ∀ (self : Engine),
    (∀ qb, retriever_aretrieve (_retriever self) qb
           = retriever_retrieve (_retriever self) qb) →
    (∀ qb nodes extra,
       synthesizer_asynthesize (_response_synthesizer self) qb nodes extra
       = synthesizer_synthesize (_response_synthesizer self) qb nodes extra) →
    ∀ (qb : QueryBundle) (tr : Trace),
      _aquery self qb tr = _query self qb tr
      ∧ aretrieve self qb tr = retrieve self qb tr
      ∧ (∀ nodes extra,
           asynthesize self qb nodes extra tr
           = synthesize self qb nodes extra tr).
Proof.
  intros self Hr Hs qb tr.
  assert (Hret : ∀ tr', aretrieve self qb tr' = retrieve self qb tr').
  { intros tr'. by rewrite aretrieve_silent, retrieve_silent, Hr. }
  split_and!.
  - unfold _aquery, _query, bind, on_event_start, on_event_end, call.
    rewrite Hret.
    destruct (retrieve self qb _) as [[nodes | e] tr']; [| done].
    by rewrite Hs.
  - apply Hret.
  - intros nodes extra. unfold asynthesize, synthesize, call. by rewrite Hs.
Qed.

(** X4.  An exception is not caught and no failure event is emitted: when
    retrieval raises, the two start events stand without their end events;
    when the synthesizer raises, the RETRIEVE pair is closed and the QUERY
    start stands alone. *)
Theorem failure_leaves_start_events_open :
  ∀ (self : Engine) (qb : QueryBundle) (tr : Trace) (e : PyExn),
    let query_id := new_event_id (callback_manager self) tr QUERY in
    let e1 := EventStart QUERY (QUERY_STR (query_str qb)) query_id in
    let retrieve_id :=
      new_event_id (callback_manager self) (tr ++ [e1]) RETRIEVE in
    ((retrieve self qb tr).1 = Raised e →
     _query self qb tr
     = (Raised e, tr ++ [e1; EventStart RETRIEVE NoPayload retrieve_id]))
    ∧ ∀ nodes,
        (retrieve self qb tr).1 = Returned nodes →
        synthesizer_synthesize (_response_synthesizer self) qb nodes None
          = Raised e →
        _query self qb tr
        = (Raised e,
           tr ++ [ e1;
                   EventStart RETRIEVE NoPayload retrieve_id;
                   EventEnd RETRIEVE (NODES nodes) retrieve_id ]).
Proof.
  intros self qb tr e query_id e1 retrieve_id.
  assert (Hsilent : ∀ tr', retrieve self qb tr'
                           = ((retrieve self qb tr).1, tr')).
  { intros tr'. by rewrite !retrieve_silent. }
  split.
  - intros Hret.
    unfold _query, bind, on_event_start, on_event_end, call, ret.
    fold query_id e1 retrieve_id.
    rewrite Hsilent, Hret. by rewrite <- !(assoc_L (++)).
  - intros nodes Hret Hsyn.
    unfold _query, bind, on_event_start, on_event_end, call, ret.
    fold query_id e1 retrieve_id.
    rewrite Hsilent, Hret, Hsyn. by rewrite <- !(assoc_L (++)).
Qed.

End QueryEngineProperties.

(** * Properties of the node builder *)

Section NodeUtilsProperties.
Import NodeUtils.

Variable schema : Schema.

Lemma compute_node_metadata_returns document include_metadata ts σ :
  ∃ d σ',
    compute_node_metadata document include_metadata ts σ = (Returned d, σ')
    ∧ d = (if include_metadata then deref σ' (doc_metadata document) else ∅)
    ∧ σ' = (if include_metadata then
              match metadata ts with
              | Some m =>
                  <[doc_metadata document :=
                      deref σ m ∪ deref σ (doc_metadata document)]> σ
              | None => σ
              end
            else σ).
Proof.
  unfold compute_node_metadata.
  destruct include_metadata; [| by eexists _, _].
  destruct (metadata ts) as [m|]; by eexists _, _.
Qed.

Lemma nodes_loop_body_known document include_metadata c k ts σ :
  doc_class document ≠ OtherBaseNode →
  ∃ n,
    nodes_loop_body schema document include_metadata c k ts σ
    = (Returned (c + (len (text_chunk ts) + 1), n),
       (compute_node_metadata document include_metadata ts σ).2)
    ∧ node_built_from schema document include_metadata c k ts
        (compute_node_metadata document include_metadata ts σ).2 n.
Proof.
  intros Hclass.
  destruct (compute_node_metadata_returns document include_metadata ts σ)
    as (d & σ' & Hrun & Hd & _).
  unfold nodes_loop_body, bind. rewrite Hrun. simpl.
  destruct (doc_class document) eqn:Hc; [| | done];
    unfold document_as_related_node_info, bind, get_state, ret;
    eexists; (split; [reflexivity |]);
    unfold node_built_from; simpl; rewrite ?Hc;
    by destruct (num_char_overlap ts).
Qed.

Lemma nodes_loop_body_unknown document include_metadata c k ts σ :
  doc_class document = OtherBaseNode →
  nodes_loop_body schema document include_metadata c k ts σ
  = (Raised (ValueError "Unknown document type"),
     (compute_node_metadata document include_metadata ts σ).2).
Proof.
  intros Hclass.
  destruct (compute_node_metadata_returns document include_metadata ts σ)
    as (d & σ' & Hrun & _).
  unfold nodes_loop_body, bind. rewrite Hrun, Hclass. done.
Qed.

(** The loop, for a plain or image document: one node per split, appended in
    order, each built by the loop body in the state its predecessors left. *)
Lemma nodes_loop_known document include_metadata :
  doc_class document ≠ OtherBaseNode →
  ∀ text_splits c acc σ,
    ∃ new,
      nodes_loop schema document include_metadata text_splits c acc σ
      = (Returned (acc ++ new),
         store_from document include_metadata σ text_splits)
      ∧ length new = length text_splits
      ∧ ∀ i ts, text_splits !! i = Some ts →
          ∃ n, new !! i = Some n
               ∧ node_built_from schema document include_metadata
                   (cursor_from c (take i text_splits)) (length acc + i) ts
                   (store_from document include_metadata σ
                      (take (S i) text_splits)) n.
Proof.
  intros Hclass text_splits.
  induction text_splits as [|ts rest IH]; intros c acc σ.
  - exists []. rewrite app_nil_r. by split_and!.
  - destruct (nodes_loop_body_known document include_metadata c (length acc)
                ts σ Hclass) as (n & Hbody & Hn).
    destruct (IH (c + (len (text_chunk ts) + 1)) (acc ++ [n])
                (compute_node_metadata document include_metadata ts σ).2)
      as (new & Hloop & Hlen & Hnodes).
    exists (n :: new). split_and!.
    + cbn [nodes_loop]. unfold bind. rewrite Hbody. cbn [fst snd].
      rewrite Hloop. by rewrite <- (assoc_L (++)).
    + simpl. by rewrite Hlen.
    + intros [|i] ts' Hi.
      * injection Hi as <-. exists n. split; [done |].
        by rewrite Nat.add_0_r.
      * destruct (Hnodes i ts' Hi) as (n' & Hn' & Hbuilt).
        exists n'. split; [done |].
        rewrite length_app, <- Nat.add_assoc in Hbuilt. exact Hbuilt.
Qed.

(** The loop, for any other document: the first split raises. *)
Lemma nodes_loop_unknown document include_metadata ts rest c acc σ :
  doc_class document = OtherBaseNode →
  nodes_loop schema document include_metadata (ts :: rest) c acc σ
  = (Raised (ValueError "Unknown document type"),
     (compute_node_metadata document include_metadata ts σ).2).
Proof.
  intros Hclass. cbn [nodes_loop]. unfold bind.
  by rewrite nodes_loop_body_unknown.
Qed.

(** ** The sibling pass *)

Lemma as_related_node_info_link_node nodes i n :
  as_related_node_info (link_node nodes i n) = as_related_node_info n.
Proof. unfold link_node. by repeat case_match. Qed.

Lemma link_node_ext (l1 l2 : list Node) i n :
  length l1 = length l2 →
  as_related_node_info <$> l1 !! (i - 1)%nat
    = as_related_node_info <$> l2 !! (i - 1)%nat →
  as_related_node_info <$> l1 !! (i + 1)%nat
    = as_related_node_info <$> l2 !! (i + 1)%nat →
  link_node l1 i n = link_node l2 i n.
Proof.
  intros Hlen Hp Hn. unfold link_node. rewrite Hlen.
  destruct (l1 !! (i - 1)%nat) as [p1|], (l2 !! (i - 1)%nat) as [p2|];
    try done;
    destruct (l1 !! (i + 1)%nat) as [n1|], (l2 !! (i + 1)%nat) as [n2|];
    try done;
    repeat match goal with
           | H : _ <$> Some _ = _ <$> Some _ |- _ =>
               apply (inj Some) in H; rewrite H
           end;
    done.
Qed.

Lemma linked_below_lookup nodes k i :
  linked_below nodes k !! i
  = (λ n, if bool_decide (i < k)%nat then link_node nodes i n else n)
      <$> nodes !! i.
Proof. unfold linked_below. by rewrite list_lookup_imap. Qed.

Lemma linked_below_as_related_node_info nodes k i :
  as_related_node_info <$> linked_below nodes k !! i
  = as_related_node_info <$> nodes !! i.
Proof.
  rewrite linked_below_lookup. destruct (nodes !! i) as [n|]; [| done].
  simpl. case_bool_decide; [| done].
  by rewrite as_related_node_info_link_node.
Qed.

Lemma link_step_linked_below nodes k :
  link_step (linked_below nodes k) k = linked_below nodes (S k).
Proof.
  assert (Hlen : length (linked_below nodes k) = length nodes)
    by apply length_imap.
  unfold link_step. rewrite linked_below_lookup.
  destruct (nodes !! k) as [n|] eqn:Hk; simpl.
  - rewrite bool_decide_eq_false_2 by lia.
    rewrite (link_node_ext _ nodes) by
      (done || apply linked_below_as_related_node_info).
    apply list_eq. intros j. destruct (decide (j = k)) as [-> | Hne].
    + rewrite list_lookup_insert_eq by (rewrite Hlen; by eapply lookup_lt_Some).
      rewrite linked_below_lookup, Hk. simpl.
      by rewrite bool_decide_eq_true_2 by lia.
    + rewrite list_lookup_insert_ne by done.
      rewrite !linked_below_lookup. destruct (nodes !! j); [| done]. simpl.
      by rewrite (bool_decide_ext (j < k)%nat (j < S k)%nat) by lia.
  - apply list_eq. intros j. rewrite !linked_below_lookup.
    destruct (nodes !! j) eqn:Hj; [| done]. simpl.
    apply lookup_ge_None in Hk. apply lookup_lt_Some in Hj.
    by rewrite (bool_decide_ext (j < k)%nat (j < S k)%nat) by lia.
Qed.

Lemma foldl_link_step nodes k :
  foldl link_step nodes (seq 0 k) = linked_below nodes k.
Proof.
  induction k as [|k IH].
  - simpl. apply list_eq. intros j. rewrite linked_below_lookup.
    destruct (nodes !! j); [| done].
    cbn [fmap option_fmap option_map].
    by rewrite bool_decide_eq_false_2 by lia.
  - rewrite seq_S, foldl_app. simpl. rewrite IH.
    apply link_step_linked_below.
Qed.

(** The whole pass, node by node. *)
Lemma link_pass_lookup nodes i :
  link_pass nodes !! i = link_node nodes i <$> nodes !! i.
Proof.
  unfold link_pass. rewrite foldl_link_step, linked_below_lookup.
  destruct (nodes !! i) eqn:Hi; [| done]. simpl.
  apply lookup_lt_Some in Hi. by rewrite bool_decide_eq_true_2.
Qed.

Lemma link_pass_length nodes : length (link_pass nodes) = length nodes.
Proof. unfold link_pass. rewrite foldl_link_step. apply length_imap. Qed.

Lemma link_node_content nodes i n :
  text (link_node nodes i n) = text n
  ∧ id_ (link_node nodes i n) = id_ n
  ∧ start_char_idx (link_node nodes i n) = start_char_idx n
  ∧ end_char_idx (link_node nodes i n) = end_char_idx n
  ∧ node_metadata (link_node nodes i n) = node_metadata n
  ∧ relationships (link_node nodes i n) !! SOURCE
    = relationships n !! SOURCE.
Proof.
  unfold link_node.
  repeat case_match; simpl; by rewrite ?lookup_insert_ne by done.
Qed.

(** ** The chunk extractor *)

Lemma combine_with_document_metadata_returns document include_metadata ts σ :
  ∃ ts' σ',
    combine_with_document_metadata document include_metadata ts σ
    = (Returned ts', σ')
    ∧ text_chunk ts' = text_chunk ts
    ∧ num_char_overlap ts' = num_char_overlap ts
    ∧ (include_metadata = false → ts' = ts ∧ σ' = σ).
Proof.
  unfold combine_with_document_metadata, bind, get_state.
  destruct include_metadata; simpl; [| by eexists _, _].
  destruct (truthy _); [| by eexists _, _].
  destruct (metadata ts) as [m|]; by eexists _, _.
Qed.

Lemma text_splits_loop_returns document include_metadata text_chunks :
  ∀ acc σ,
    ∃ new σ',
      text_splits_loop document include_metadata text_chunks acc σ
      = (Returned (acc ++ new), σ')
      ∧ text_chunk <$> new = chunk_text <$> text_chunks
      ∧ (include_metadata = false → σ' = σ).
Proof.
  induction text_chunks as [|c rest IH]; intros acc σ.
  - exists [], σ. by rewrite app_nil_r.
  - destruct (combine_with_document_metadata_returns document
                include_metadata (text_split_of_chunk c) σ)
      as (ts & σ1 & Hrun & Htext & _ & Hframe).
    destruct (IH (acc ++ [ts]) σ1) as (new & σ' & Hloop & Htexts & Hframe').
    exists (ts :: new), σ'. split_and!.
    + cbn [text_splits_loop]. unfold bind. rewrite Hrun, Hloop.
      by rewrite <- (assoc_L (++)).
    + rewrite !fmap_cons, Htexts, Htext. by destruct c.
    + intros Hinc. destruct (Hframe Hinc) as [_ ->]. by apply Hframe'.
Qed.

(** The extractor always returns, with one split per chunk, in order. *)
Lemma get_text_splits_from_document_returns document text_splitter
    include_metadata σ :
  ∃ text_splits σ1,
    get_text_splits_from_document schema document text_splitter
      include_metadata σ
    = (Returned text_splits, σ1)
    ∧ text_chunk <$> text_splits
      = produced_chunk_texts schema document text_splitter include_metadata σ
    ∧ (include_metadata = false → σ1 = σ).
Proof.
  destruct text_splitter as [f | f]; simpl.
  - by eexists _, _.
  - destruct (text_splits_loop_returns document include_metadata
                (f (get_content document)) [] σ)
      as (new & σ1 & Hloop & Htexts & Hframe).
    by exists new, σ1.
Qed.

(** ** The node builder as a whole *)

(** Whenever [get_nodes_from_document] returns, its nodes are the ones the
    loop body built for the extractor's splits, one per split and in order,
    after the sibling pass when that was asked for. *)
Lemma get_nodes_from_document_returned document text_splitter
    include_metadata include_prev_next_rel σ nodes σ' :
  get_nodes_from_document schema document text_splitter include_metadata
    include_prev_next_rel σ
  = (Returned nodes, σ') →
  ∃ text_splits σ1 new,
    get_text_splits_from_document schema document text_splitter
      include_metadata σ
    = (Returned text_splits, σ1)
    ∧ nodes = (if include_prev_next_rel then link_pass new else new)
    ∧ σ' = store_from document include_metadata σ1 text_splits
    ∧ length new = length text_splits
    ∧ ∀ i ts, text_splits !! i = Some ts →
        ∃ n, new !! i = Some n
             ∧ node_built_from schema document include_metadata
                 (cursor_from 0 (take i text_splits)) i ts
                 (store_from document include_metadata σ1
                    (take (S i) text_splits)) n.
Proof.
  intros Hrun.
  destruct (get_text_splits_from_document_returns document text_splitter
              include_metadata σ) as (text_splits & σ1 & Hext & _).
  exists text_splits, σ1.
  unfold get_nodes_from_document, bind in Hrun. rewrite Hext in Hrun.
  destruct (decide (doc_class document = OtherBaseNode)) as [Hc | Hc].
  - destruct text_splits as [|ts rest].
    + exists []. simpl in Hrun. unfold ret in Hrun.
      destruct include_prev_next_rel; simplify_eq; by split_and!.
    + by rewrite nodes_loop_unknown in Hrun.
  - destruct (nodes_loop_known document include_metadata Hc text_splits 0 [] σ1)
      as (new & Hloop & Hlen & Hnodes).
    rewrite Hloop in Hrun. exists new. unfold ret in Hrun.
    destruct include_prev_next_rel; simplify_eq; by split_and!.
Qed.

(** For a plain or image document it does return. *)
Lemma get_nodes_from_document_known_returns document text_splitter
    include_metadata include_prev_next_rel σ :
  doc_class document ≠ OtherBaseNode →
  ∃ nodes σ',
    get_nodes_from_document schema document text_splitter include_metadata
      include_prev_next_rel σ
    = (Returned nodes, σ').
Proof.
  intros Hc.
  destruct (get_text_splits_from_document_returns document text_splitter
              include_metadata σ) as (text_splits & σ1 & Hext & _).
  destruct (nodes_loop_known document include_metadata Hc text_splits 0 [] σ1)
    as (new & Hloop & _).
  unfold get_nodes_from_document, bind. rewrite Hext, Hloop.
  destruct include_prev_next_rel; by eexists _, _.
Qed.

(** The node at index [i] of the returned list, from the node the loop
    built there. *)
Lemma returned_node_lookup (include_prev_next_rel : bool) (new : list Node) i :
  (if include_prev_next_rel then link_pass new else new) !! i
  = (λ n, if include_prev_next_rel then link_node new i n else n)
      <$> new !! i.
Proof.
  destruct include_prev_next_rel; [apply link_pass_lookup |].
  by destruct (new !! i).
Qed.

Lemma link_node_previous nodes i n :
  relationships (link_node nodes i n) !! PREVIOUS
  = if bool_decide (0 < i)%nat then
      match nodes !! (i - 1)%nat with
      | Some p => Some (as_related_node_info p)
      | None => relationships n !! PREVIOUS
      end
    else relationships n !! PREVIOUS.
Proof.
  unfold link_node.
  repeat case_match; simpl;
    by rewrite ?lookup_insert_eq, ?lookup_insert_ne, ?lookup_insert_eq by done.
Qed.

Lemma link_node_next nodes i n :
  relationships (link_node nodes i n) !! NEXT
  = if bool_decide (Z.of_nat i < Z.of_nat (length nodes) - 1) then
      match nodes !! (i + 1)%nat with
      | Some nx => Some (as_related_node_info nx)
      | None => relationships n !! NEXT
      end
    else relationships n !! NEXT.
Proof.
  unfold link_node.
  repeat case_match; simpl;
    by rewrite ?lookup_insert_eq, ?lookup_insert_ne by done.
Qed.

Lemma cursor_from_step c (text_splits : list TextSplit) i ts :
  text_splits !! i = Some ts →
  cursor_from c (take (S i) text_splits)
  = cursor_from c (take i text_splits) + (len (text_chunk ts) + 1).
Proof.
  intros Hi. unfold cursor_from.
  by rewrite (take_S_r _ _ _ Hi), foldl_app.
Qed.

Lemma store_from_snoc document include_metadata σ done ts :
  store_from document include_metadata σ (done ++ [ts])
  = (compute_node_metadata document include_metadata ts
       (store_from document include_metadata σ done)).2.
Proof. unfold store_from. by rewrite foldl_app. Qed.

Lemma store_from_without_metadata document σ text_splits :
  store_from document false σ text_splits = σ.
Proof. unfold store_from. by induction text_splits. Qed.

(** With [include_metadata] off, neither the extractor nor the loop writes
    to the store. *)
Lemma store_unchanged_without_metadata document text_splitter σ
    text_splits σ1 :
  get_text_splits_from_document schema document text_splitter false σ
  = (Returned text_splits, σ1) →
  store_from document false σ1 text_splits = σ.
Proof.
  intros Hext. rewrite store_from_without_metadata.
  destruct (get_text_splits_from_document_returns document text_splitter
              false σ) as (? & ? & Hext' & _ & Hframe).
  rewrite Hext in Hext'. injection Hext' as <- <-. by apply Hframe.
Qed.

(** C5.  For a plain or image document the builder returns, and whenever it
    returns, the texts of its nodes are the texts of the splitter's chunks,
    chunk by chunk and in the same order; so there are as many nodes as
    chunks. *)
Theorem one_node_per_chunk_in_order :
  ∀ (document : BaseNode) (text_splitter : TextSplitter)
    (include_metadata include_prev_next_rel : bool) (σ : store),
    (doc_class document ≠ OtherBaseNode →
     ∃ nodes σ',
       get_nodes_from_document schema document text_splitter
         include_metadata include_prev_next_rel σ
       = (Returned nodes, σ'))
    ∧ ∀ nodes σ',
        get_nodes_from_document schema document text_splitter
          include_metadata include_prev_next_rel σ
        = (Returned nodes, σ') →
        text <$> nodes
        = produced_chunk_texts schema document text_splitter include_metadata σ
        ∧ length nodes
          = length (produced_chunk_texts schema document text_splitter
                      include_metadata σ).
Proof.
  intros document text_splitter include_metadata include_prev_next_rel σ.
  split; [apply get_nodes_from_document_known_returns |].
  intros nodes σ' Hrun.
  destruct (get_nodes_from_document_returned _ _ _ _ _ _ _ Hrun)
    as (text_splits & σ1 & new & Hext & -> & _ & Hlen & Hnodes).
  destruct (get_text_splits_from_document_returns document text_splitter
              include_metadata σ) as (? & ? & Hext' & Htexts & _).
  rewrite Hext in Hext'. injection Hext' as <- <-.
  assert (Heq : text <$> (if include_prev_next_rel then link_pass new else new)
                = text_chunk <$> text_splits).
  { apply list_eq. intros i.
    rewrite !list_lookup_fmap, returned_node_lookup.
    destruct (text_splits !! i) as [ts|] eqn:Hi.
    - destruct (Hnodes i ts Hi) as (n & -> & Htext & _). simpl.
      destruct include_prev_next_rel; [| by rewrite Htext].
      destruct (link_node_content new i n) as (-> & _). by rewrite Htext.
    - apply lookup_ge_None in Hi. rewrite <- Hlen in Hi.
      apply lookup_ge_None in Hi. by rewrite Hi. }
  split.
  - by rewrite Heq, Htexts.
  - by rewrite <- Htexts, <- Heq, !length_fmap.
Qed.

(** C3.  With the cursor at 0 before the first split and advanced by
    [len (chunk text) + 1] after each split, the node of split [i] has
    [start_char_idx = cursor - k] and [end_char_idx = start_char_idx + len
    (chunk text)] when the split carries the overlap count [k] (so their
    difference is the length of the chunk text), and no offsets when the
    split carries none. *)
Theorem char_offsets_follow_cursor :
  ∀ (document : BaseNode) (text_splitter : TextSplitter)
    (include_metadata include_prev_next_rel : bool) (σ : store),
    (doc_class document ≠ OtherBaseNode →
     ∃ nodes σ',
       get_nodes_from_document schema document text_splitter
         include_metadata include_prev_next_rel σ
       = (Returned nodes, σ'))
    ∧ ∀ nodes σ',
        get_nodes_from_document schema document text_splitter
          include_metadata include_prev_next_rel σ
        = (Returned nodes, σ') →
        ∃ text_splits σ1,
          get_text_splits_from_document schema document text_splitter
            include_metadata σ
          = (Returned text_splits, σ1)
          ∧ cursor_from 0 (take 0 text_splits) = 0
          ∧ ∀ i ts, text_splits !! i = Some ts →
              let cursor := cursor_from 0 (take i text_splits) in
              cursor_from 0 (take (S i) text_splits)
              = cursor + (len (text_chunk ts) + 1)
              ∧ ∃ n, nodes !! i = Some n
                     ∧ match num_char_overlap ts with
                       | Some k =>
                           ∃ s e,
                             start_char_idx n = Some s
                             ∧ end_char_idx n = Some e
                             ∧ s = cursor - k
                             ∧ e = s + len (text_chunk ts)
                             ∧ e - s = len (text_chunk ts)
                       | None =>
                           start_char_idx n = None ∧ end_char_idx n = None
                       end.
Proof.
  intros document text_splitter include_metadata include_prev_next_rel σ.
  split; [apply get_nodes_from_document_known_returns |].
  intros nodes σ' Hrun.
  destruct (get_nodes_from_document_returned _ _ _ _ _ _ _ Hrun)
    as (text_splits & σ1 & new & Hext & -> & _ & Hlen & Hnodes).
  exists text_splits, σ1. split_and!; [done | by rewrite take_0 |].
  intros i ts Hi cursor. split; [by apply cursor_from_step |].
  destruct (Hnodes i ts Hi) as (n & Hn & _ & _ & Hstart & Hend & _).
  rewrite returned_node_lookup, Hn. simpl. eexists. split; [done |].
  assert (Hs : start_char_idx
                 (if include_prev_next_rel then link_node new i n else n)
               = start_char_idx n).
  { destruct include_prev_next_rel; [| done].
    by destruct (link_node_content new i n) as (_ & _ & -> & _). }
  assert (He : end_char_idx
                 (if include_prev_next_rel then link_node new i n else n)
               = end_char_idx n).
  { destruct include_prev_next_rel; [| done].
    by destruct (link_node_content new i n) as (_ & _ & _ & -> & _). }
  rewrite Hs, He, Hstart, Hend. fold cursor.
  destruct (num_char_overlap ts) as [k|]; simpl; [| done].
  eexists _, _. split_and!; [done | done | done | lia | lia].
Qed.

(** C10.  With [include_metadata] off, every node the builder returns has an
    empty metadata mapping, whatever metadata the document and the splits
    carry; and the store is left as it was. *)
Theorem no_metadata_when_not_included :
  ∀ (document : BaseNode) (text_splitter : TextSplitter)
    (include_prev_next_rel : bool) (σ : store),
    (doc_class document ≠ OtherBaseNode →
     ∃ nodes σ',
       get_nodes_from_document schema document text_splitter false
         include_prev_next_rel σ
       = (Returned nodes, σ'))
    ∧ ∀ nodes σ',
        get_nodes_from_document schema document text_splitter false
          include_prev_next_rel σ
        = (Returned nodes, σ') →
        Forall (λ n, node_metadata n = ∅) nodes ∧ σ' = σ.
Proof.
  intros document text_splitter include_prev_next_rel σ.
  split; [apply get_nodes_from_document_known_returns |].
  intros nodes σ' Hrun.
  destruct (get_nodes_from_document_returned _ _ _ _ _ _ _ Hrun)
    as (text_splits & σ1 & new & Hext & -> & -> & Hlen & Hnodes).
  split; [| by eapply store_unchanged_without_metadata].
  apply Forall_lookup. intros i n' Hi.
  rewrite returned_node_lookup in Hi.
  destruct (new !! i) as [n|] eqn:Hn; [| done].
  injection Hi as <-.
  destruct (text_splits !! i) as [ts|] eqn:Hts.
  - destruct (Hnodes i ts Hts) as (n0 & Hn0 & _ & _ & _ & _ & Hmd & _).
    rewrite Hn in Hn0. injection Hn0 as <-.
    destruct include_prev_next_rel; [| done].
    by destruct (link_node_content new i n) as (_ & _ & _ & _ & -> & _).
  - apply lookup_ge_None in Hts. apply lookup_lt_Some in Hn. lia.
Qed.

(** C4.  Every returned node has a SOURCE relationship, and it refers to
    the document.  With [include_prev_next_rel] on, the node at index [i] has
    a PREVIOUS relationship exactly when [i > 0], referring to the node at
    [i - 1], and a NEXT relationship exactly when it is not the last node,
    referring to the node at [i + 1]; with it off there is neither.  No node
    has a relationship of another kind. *)
Theorem relationships_of_returned_nodes :
  ∀ (document : BaseNode) (text_splitter : TextSplitter)
    (include_metadata include_prev_next_rel : bool) (σ : store),
    (doc_class document ≠ OtherBaseNode →
     ∃ nodes σ',
       get_nodes_from_document schema document text_splitter
         include_metadata include_prev_next_rel σ
       = (Returned nodes, σ'))
    ∧ ∀ nodes σ',
        get_nodes_from_document schema document text_splitter
          include_metadata include_prev_next_rel σ
        = (Returned nodes, σ') →
        ∀ i n, nodes !! i = Some n →
          (∃ info, relationships n !! SOURCE = Some info
                   ∧ node_id info = doc_id document)
          ∧ (include_prev_next_rel = false →
             relationships n !! PREVIOUS = None
             ∧ relationships n !! NEXT = None)
          ∧ (i = 0%nat → relationships n !! PREVIOUS = None)
          ∧ (S i = length nodes → relationships n !! NEXT = None)
          ∧ (include_prev_next_rel = true →
             ∀ j p, i = S j → nodes !! j = Some p →
               relationships n !! PREVIOUS = Some (as_related_node_info p)
               ∧ node_id (as_related_node_info p) = id_ p)
          ∧ (include_prev_next_rel = true →
             ∀ p, nodes !! (S i) = Some p →
               relationships n !! NEXT = Some (as_related_node_info p)
               ∧ node_id (as_related_node_info p) = id_ p)
          ∧ relationships n !! PARENT = None
          ∧ relationships n !! CHILD = None.
Proof.
  intros document text_splitter include_metadata include_prev_next_rel σ.
  split; [apply get_nodes_from_document_known_returns |].
  intros nodes σ' Hrun.
  destruct (get_nodes_from_document_returned _ _ _ _ _ _ _ Hrun)
    as (text_splits & σ1 & new & Hext & -> & _ & Hlen & Hnodes).
  assert (Hrel : ∀ i n, new !! i = Some n →
            ∃ info, node_id info = doc_id document
                    ∧ relationships n = {[ SOURCE := info ]}).
  { intros i n Hn.
    destruct (text_splits !! i) as [ts|] eqn:Hts.
    - destruct (Hnodes i ts Hts) as (n0 & Hn0 & _ & _ & _ & _ & _ & Hr & _).
      rewrite Hn in Hn0. injection Hn0 as <-.
      eexists. split; [| exact Hr]. done.
    - apply lookup_ge_None in Hts. apply lookup_lt_Some in Hn. lia. }
  intros i n' Hi. rewrite returned_node_lookup in Hi.
  destruct (new !! i) as [n|] eqn:Hn; [| done]. injection Hi as <-.
  destruct (Hrel i n Hn) as (info & Hid & Hr).
  destruct include_prev_next_rel.
  - rewrite link_pass_length.
    destruct (link_node_content new i n) as (_ & _ & _ & _ & _ & Hsrc).
    rewrite Hsrc, link_node_previous, link_node_next, Hr.
    rewrite lookup_singleton_eq, !lookup_singleton_ne by done.
    split_and!.
    + by exists info.
    + done.
    + intros ->. by rewrite bool_decide_eq_false_2 by lia.
    + intros Hlast. by rewrite bool_decide_eq_false_2 by lia.
    + intros _ j p -> Hp. rewrite link_pass_lookup in Hp.
      rewrite bool_decide_eq_true_2 by lia.
      replace (S j - 1)%nat with j by lia.
      destruct (new !! j) as [p0|]; [| done]. injection Hp as <-.
      split; [by rewrite as_related_node_info_link_node | done].
    + intros _ p Hp. rewrite link_pass_lookup in Hp.
      replace (i + 1)%nat with (S i) by lia.
      destruct (new !! S i) as [p0|] eqn:Hp0; [| done]. injection Hp as <-.
      apply lookup_lt_Some in Hp0.
      rewrite bool_decide_eq_true_2 by lia.
      split; [by rewrite as_related_node_info_link_node | done].
    + unfold link_node. repeat case_match; simpl;
        by rewrite ?lookup_insert_ne, Hr by done.
    + unfold link_node. repeat case_match; simpl;
        by rewrite ?lookup_insert_ne, Hr by done.
  - rewrite Hr, lookup_singleton_eq, !lookup_singleton_ne by done.
    split_and!; try done. by exists info.
Qed.

(** C8, as the code has it.  The extractor never raises.  The builder raises
    exactly when the document is neither plain nor image and the extractor
    yields at least one split: the error is the [ValueError] of the first
    pass through the loop body, before any node is appended, and no node
    list comes back.  In every other case, a plain or image document or no
    split at all, it returns. *)
Theorem unknown_document_type_raised_on_first_split :
  ∀ (document : BaseNode) (text_splitter : TextSplitter)
    (include_metadata include_prev_next_rel : bool) (σ : store),
    ∃ text_splits σ1,
      get_text_splits_from_document schema document text_splitter
        include_metadata σ
      = (Returned text_splits, σ1)
      ∧ (doc_class document = OtherBaseNode ∧ text_splits ≠ [] →
         get_nodes_from_document schema document text_splitter
           include_metadata include_prev_next_rel σ
         = (Raised (ValueError "Unknown document type"),
            store_from document include_metadata σ1 (take 1 text_splits)))
      ∧ (doc_class document ≠ OtherBaseNode ∨ text_splits = [] →
         ∃ nodes σ',
           get_nodes_from_document schema document text_splitter
             include_metadata include_prev_next_rel σ
           = (Returned nodes, σ')
           ∧ length nodes = length text_splits).
Proof.
  intros document text_splitter include_metadata include_prev_next_rel σ.
  destruct (get_text_splits_from_document_returns document text_splitter
              include_metadata σ) as (text_splits & σ1 & Hext & _).
  exists text_splits, σ1. split_and!; [done | |].
  - intros [Hc Hne]. destruct text_splits as [|ts rest]; [done |].
    unfold get_nodes_from_document, bind.
    by rewrite Hext, nodes_loop_unknown.
  - intros Hok.
    destruct (decide (doc_class document = OtherBaseNode)) as [Hc | Hc].
    + destruct Hok as [? | ->]; [done |].
      unfold get_nodes_from_document, bind. rewrite Hext. simpl.
      destruct include_prev_next_rel; by eexists _, _.
    + destruct (get_nodes_from_document_known_returns document text_splitter
                  include_metadata include_prev_next_rel σ Hc)
        as (nodes & σ' & Hrun).
      exists nodes, σ'. split; [done |].
      destruct (get_nodes_from_document_returned _ _ _ _ _ _ _ Hrun)
        as (? & ? & new & Hext' & -> & _ & Hlen & _).
      rewrite Hext in Hext'. injection Hext' as <- <-.
      destruct include_prev_next_rel; by rewrite ?link_pass_length.
Qed.

Lemma get_nodes_from_document_with_siblings document text_splitter
    include_metadata σ :
  get_nodes_from_document schema document text_splitter include_metadata
    true σ
  = match get_nodes_from_document schema document text_splitter
            include_metadata false σ with
    | (Returned nodes, σ') => (Returned (link_pass nodes), σ')
    | (Raised e, σ') => (Raised e, σ')
    end.
Proof.
  unfold get_nodes_from_document, bind.
  destruct (get_text_splits_from_document _ _ _ _ _) as [[splits | e] σ1];
    [| done].
  by destruct (nodes_loop _ _ _ _ _ _ _) as [[nodes | e] σ'].
Qed.

(** X3.  The sibling pass is a pure post-pass: asking for sibling links changes
    neither the outcome, nor the store, nor the number of nodes, nor any
    node's text, identifier, offsets, metadata or SOURCE relationship. *)
Theorem sibling_pass_touches_relationships_only :
  ∀ (document : BaseNode) (text_splitter : TextSplitter)
    (include_metadata : bool) (σ : store),
    (∀ e σ',
       get_nodes_from_document schema document text_splitter
         include_metadata false σ = (Raised e, σ') ↔
       get_nodes_from_document schema document text_splitter
         include_metadata true σ = (Raised e, σ'))
    ∧ ∀ plain σ',
        get_nodes_from_document schema document text_splitter
          include_metadata false σ = (Returned plain, σ') →
        ∃ nodes,
          get_nodes_from_document schema document text_splitter
            include_metadata true σ = (Returned nodes, σ')
          ∧ length nodes = length plain
          ∧ ∀ i p, plain !! i = Some p →
              ∃ n, nodes !! i = Some n
                   ∧ text n = text p
                   ∧ id_ n = id_ p
                   ∧ start_char_idx n = start_char_idx p
                   ∧ end_char_idx n = end_char_idx p
                   ∧ node_metadata n = node_metadata p
                   ∧ relationships n !! SOURCE = relationships p !! SOURCE.
Proof.
  intros document text_splitter include_metadata σ.
  rewrite get_nodes_from_document_with_siblings.
  destruct (get_nodes_from_document schema document text_splitter
              include_metadata false σ) as [[plain | e] σ1].
  - split; [by split |].
    intros ? ? [= <- <-]. exists (link_pass plain).
    split_and!; [done | apply link_pass_length |].
    intros i p Hp. exists (link_node plain i p).
    split; [by rewrite link_pass_lookup, Hp |].
    apply link_node_content.
  - split; [| done]. intros e' σ'. by split.
Qed.

End NodeUtilsProperties.

(** * The two metadata merges *)

Section MetadataMerges.
Import NodeUtils.

Variable schema : Schema.

Lemma deref_insert (σ : store) r r' (d : dict) :
  deref (<[r := d]> σ) r' = if decide (r = r') then d else deref σ r'.
Proof. unfold deref. rewrite lookup_insert. by case_decide. Qed.

Lemma deref_fresh (σ0 σ : store) :
  dom σ0 ⊆ dom σ → deref σ0 (fresh (dom σ)) = ∅.
Proof.
  intros Hdom. unfold deref.
  assert (Hnone : σ0 !! fresh (dom σ) = None).
  { apply not_elem_of_dom. intros Hin. apply (is_fresh (dom σ)). auto. }
  by rewrite Hnone.
Qed.

Lemma deref_allocated (σ : store) r : deref σ r ≠ ∅ → r ∈ dom σ.
Proof.
  unfold deref. intros Hne. apply elem_of_dom.
  destruct (σ !! r); [by eexists | done].
Qed.

Section ExtractorInvariant.

Variable document : BaseNode.
Variable σ0 : store.
Hypothesis Hmetadata : deref σ0 (doc_metadata document) ≠ ∅.

Lemma extractor_inv_document σ :
  extractor_inv document σ0 σ →
  deref σ (doc_metadata document) = deref σ0 (doc_metadata document).
Proof.
  intros [_ Hinv]. destruct (Hinv (doc_metadata document)) as [-> | ->];
    [done | apply (idemp_L (∪))].
Qed.

Lemma extractor_inv_union σ r :
  extractor_inv document σ0 σ →
  deref σ0 (doc_metadata document) ∪ deref σ r
  = deref σ0 (doc_metadata document) ∪ deref σ0 r.
Proof.
  intros [_ Hinv]. destruct (Hinv r) as [-> | ->]; [done |].
  by rewrite (assoc_L (∪)), (idemp_L (∪)).
Qed.

Lemma combine_with_document_metadata_merges ts σ :
  extractor_inv document σ0 σ →
  ∃ ts' m σ',
    combine_with_document_metadata document true ts σ = (Returned ts', σ')
    ∧ extractor_inv document σ0 σ'
    ∧ (∀ r, merged document σ0 σ r → merged document σ0 σ' r)
    ∧ text_chunk ts' = text_chunk ts
    ∧ metadata ts' = Some m
    ∧ merged document σ0 σ' m
    ∧ match metadata ts with
      | Some m0 => m = m0
      | None => deref σ0 m = ∅
      end.
Proof.
  intros Hinv. pose proof (extractor_inv_document σ Hinv) as Hdoc.
  unfold combine_with_document_metadata, bind, get_state. simpl.
  rewrite Hdoc. unfold truthy. rewrite bool_decide_eq_true_2 by done.
  destruct (metadata ts) as [m|] eqn:Hm.
  - exists ts, m. eexists. split; [reflexivity |].
    rewrite Hdoc, extractor_inv_union by done.
    destruct Hinv as [Hdom Hinv]. split_and!; try done.
    + split; [set_solver |]. intros r. unfold merged.
      rewrite deref_insert.
      case_decide as Hr; [right; by subst | apply Hinv].
    + intros r Hr. unfold merged. rewrite deref_insert.
      case_decide; [by subst | done].
    + unfold merged. rewrite deref_insert. by case_decide.
  - unfold new_dict, dict_update. simpl.
    set (r := fresh (dom σ)).
    assert (Hne : r ≠ doc_metadata document).
    { intros Heq. apply (is_fresh (dom σ)). fold r. rewrite Heq.
      destruct Hinv as [Hdom _]. apply Hdom. by apply deref_allocated. }
    assert (Hempty : deref σ0 r = ∅) by (apply deref_fresh, Hinv).
    exists (with_metadata ts r), r. eexists. split; [reflexivity |].
    rewrite !deref_insert. rewrite decide_False by done.
    rewrite decide_True by done. rewrite Hdoc, (right_id_L ∅ (∪)).
    destruct Hinv as [Hdom Hinv]. split_and!; try done.
    + split; [set_solver |]. intros r'. unfold merged.
      rewrite !deref_insert.
      case_decide as Hr; [| apply Hinv].
      right. subst r'. by rewrite Hempty, (right_id_L ∅ (∪)).
    + intros r' Hr'. unfold merged. rewrite !deref_insert.
      case_decide as Hr; [| done].
      subst r'. by rewrite Hempty, (right_id_L ∅ (∪)).
    + unfold merged. rewrite !deref_insert, decide_True by done.
      by rewrite Hempty, (right_id_L ∅ (∪)).
Qed.

Lemma text_splits_loop_merges text_chunks :
  ∀ acc σ,
    extractor_inv document σ0 σ →
    ∃ new σ',
      text_splits_loop document true text_chunks acc σ
      = (Returned (acc ++ new), σ')
      ∧ extractor_inv document σ0 σ'
      ∧ (∀ r, merged document σ0 σ r → merged document σ0 σ' r)
      ∧ length new = length text_chunks
      ∧ ∀ i c, text_chunks !! i = Some c →
          ∃ ts m, new !! i = Some ts
                  ∧ text_chunk ts = chunk_text c
                  ∧ metadata ts = Some m
                  ∧ deref σ' m
                    = deref σ0 (doc_metadata document) ∪ own_metadata σ0 c.
Proof.
  induction text_chunks as [|c rest IH]; intros acc σ Hinv.
  - exists [], σ. rewrite app_nil_r. by split_and!.
  - destruct (combine_with_document_metadata_merges (text_split_of_chunk c)
                σ Hinv)
      as (ts & m & σ1 & Hrun & Hinv1 & Hkeep1 & Htext & Hm & Hmerged & Hown).
    destruct (IH (acc ++ [ts]) σ1 Hinv1)
      as (new & σ' & Hloop & Hinv' & Hkeep & Hlen & Hsplits).
    exists (ts :: new), σ'. split_and!.
    + cbn [text_splits_loop]. unfold bind. rewrite Hrun, Hloop.
      by rewrite <- (assoc_L (++)).
    + done.
    + intros r Hr. by apply Hkeep, Hkeep1.
    + simpl. by rewrite Hlen.
    + intros [|i] c' Hi.
      * injection Hi as <-. exists ts, m. split_and!; try done.
        { rewrite Htext. by destruct c. }
        rewrite (Hkeep m Hmerged). unfold own_metadata.
        destruct (metadata (text_split_of_chunk c));
          [by subst | by rewrite Hown].
      * apply (Hsplits i c' Hi).
Qed.

End ExtractorInvariant.

(** X1.  The extractor's merge (lines 58-64): on the plain-split path with
    [include_metadata] on and a document that has metadata, every split ends
    up with a dictionary that holds the chunk's own metadata overwritten by
    the document's, so the document's value stands under every key the
    document has; the document's own dictionary is as before. *)
Theorem extractor_merge_document_wins :
  ∀ (document : BaseNode) (split_text : string → list Chunk) (σ : store),
    deref σ (doc_metadata document) ≠ ∅ →
    ∃ text_splits σ1,
      get_text_splits_from_document schema document
        (PlainTextSplitter split_text) true σ
      = (Returned text_splits, σ1)
      ∧ deref σ1 (doc_metadata document) = deref σ (doc_metadata document)
      ∧ length text_splits = length (split_text (get_content document))
      ∧ ∀ i c, split_text (get_content document) !! i = Some c →
          ∃ ts m, text_splits !! i = Some ts
                  ∧ metadata ts = Some m
                  ∧ deref σ1 m
                    = deref σ (doc_metadata document) ∪ own_metadata σ c
                  ∧ ∀ k v, deref σ (doc_metadata document) !! k = Some v →
                           deref σ1 m !! k = Some v.
Proof.
  intros document split_text σ Hmd.
  assert (Hinv : extractor_inv document σ σ) by (split; [done | by left]).
  destruct (text_splits_loop_merges document σ Hmd
              (split_text (get_content document)) [] σ Hinv)
    as (new & σ1 & Hloop & Hinv1 & _ & Hlen & Hsplits).
  exists new, σ1. split_and!; [done | | done |].
  - by apply extractor_inv_document.
  - intros i c Hc.
    destruct (Hsplits i c Hc) as (ts & m & Hts & _ & Hm & Hmerged).
    exists ts, m. split_and!; try done.
    intros k v Hk. rewrite Hmerged. by apply lookup_union_Some_l.
Qed.

(** X2.  The builder's merge (lines 96-100): with [include_metadata] on, the
    metadata of the node of split [i] is the split's dictionary written
    over the document's dictionary, both as they stand when the loop reaches
    split [i]; so every key of the split has the split's value in the node.
    For the first split the dictionaries are as the extractor left them. *)
Theorem builder_merge_split_wins :
  ∀ (document : BaseNode) (text_splitter : TextSplitter)
    (include_prev_next_rel : bool) (σ : store),
    (doc_class document ≠ OtherBaseNode →
     ∃ nodes σ',
       get_nodes_from_document schema document text_splitter true
         include_prev_next_rel σ
       = (Returned nodes, σ'))
    ∧ ∀ nodes σ',
        get_nodes_from_document schema document text_splitter true
          include_prev_next_rel σ
        = (Returned nodes, σ') →
        ∃ text_splits σ1,
          get_text_splits_from_document schema document text_splitter true σ
          = (Returned text_splits, σ1)
          ∧ store_from document true σ1 (take 0 text_splits) = σ1
          ∧ ∀ i ts, text_splits !! i = Some ts →
              let σi := store_from document true σ1 (take i text_splits) in
              ∃ n, nodes !! i = Some n
                   ∧ node_metadata n
                     = match metadata ts with
                       | Some m =>
                           deref σi m ∪ deref σi (doc_metadata document)
                       | None => deref σi (doc_metadata document)
                       end
                   ∧ ∀ m k v, metadata ts = Some m →
                              deref σi m !! k = Some v →
                              node_metadata n !! k = Some v.
Proof.
  intros document text_splitter include_prev_next_rel σ.
  split; [apply get_nodes_from_document_known_returns |].
  intros nodes σ' Hrun.
  destruct (get_nodes_from_document_returned _ _ _ _ _ _ _ _ Hrun)
    as (text_splits & σ1 & new & Hext & -> & _ & Hlen & Hnodes).
  exists text_splits, σ1. split_and!; [done | by rewrite take_0 |].
  intros i ts Hi σi.
  destruct (Hnodes i ts Hi) as (n & Hn & _ & _ & _ & _ & Hmd & _).
  rewrite returned_node_lookup, Hn. simpl. eexists. split; [done |].
  assert (Hsame : node_metadata
                    (if include_prev_next_rel then link_node new i n else n)
                  = node_metadata n).
  { destruct include_prev_next_rel; [| done].
    by destruct (link_node_content new i n) as (_ & _ & _ & _ & -> & _). }
  rewrite Hsame, Hmd.
  rewrite (take_S_r _ _ _ Hi), store_from_snoc. fold σi.
  destruct (compute_node_metadata_returns document true ts σi)
    as (d & σ'' & Hstep & _ & Hσ'').
  rewrite Hstep. simpl. rewrite Hσ''.
  destruct (metadata ts) as [m|].
  - rewrite deref_insert, decide_True by done. split; [done |].
    intros ? k v [= <-] Hk. by apply lookup_union_Some_l.
  - split; [done | by intros].
Qed.

End MetadataMerges.

(** * What the builder does to the store *)

Section BuilderStore.
Import NodeUtils.

Variable schema : Schema.

Lemma store_from_cons document include_metadata σ ts rest :
  store_from document include_metadata σ (ts :: rest)
  = store_from document include_metadata
      (compute_node_metadata document include_metadata ts σ).2 rest.
Proof. done. Qed.

(** One metadata step of the loop writes to the document's dictionary and
    to no other. *)
Lemma compute_node_metadata_frame document include_metadata ts σ r :
  r ≠ doc_metadata document →
  deref (compute_node_metadata document include_metadata ts σ).2 r
  = deref σ r.
Proof.
  intros Hr.
  destruct (compute_node_metadata_returns document include_metadata ts σ)
    as (d & σ' & Hrun & _ & ->).
  rewrite Hrun. simpl.
  destruct include_metadata; [| done].
  destruct (metadata ts); [| done].
  by rewrite deref_insert, decide_False.
Qed.

Lemma store_from_frame document include_metadata text_splits :
  ∀ σ r,
    r ≠ doc_metadata document →
    deref (store_from document include_metadata σ text_splits) r = deref σ r.
Proof.
  induction text_splits as [|ts rest IH]; intros σ r Hr; [done |].
  rewrite store_from_cons, IH by done.
  by apply compute_node_metadata_frame.
Qed.

Lemma accumulated_metadata_snoc document σ done ts :
  accumulated_metadata document σ (done ++ [ts])
  = match metadata ts with
    | Some m =>
        if decide (m = doc_metadata document)
        then accumulated_metadata document σ done
        else deref σ m ∪ accumulated_metadata document σ done
    | None => accumulated_metadata document σ done
    end.
Proof. unfold accumulated_metadata. by rewrite foldl_app. Qed.

(** The document's dictionary after the loop has merged [text_splits]. *)
Lemma store_from_document document σ text_splits :
  deref (store_from document true σ text_splits) (doc_metadata document)
  = accumulated_metadata document σ text_splits.
Proof.
  induction text_splits as [|ts pre IH] using rev_ind; [done |].
  rewrite store_from_snoc, accumulated_metadata_snoc.
  destruct (compute_node_metadata_returns document true ts
              (store_from document true σ pre)) as (d & σ' & Hrun & _ & ->).
  rewrite Hrun. simpl.
  destruct (metadata ts) as [m|]; [| done].
  rewrite deref_insert, decide_True by done. rewrite IH.
  case_decide as Hm.
  - subst m. rewrite IH. apply (idemp_L (∪)).
  - by rewrite store_from_frame.
Qed.

(** The store a call of the builder ends in, whatever its outcome: the loop
    has merged a prefix of the extractor's splits. *)
Lemma get_nodes_from_document_store document text_splitter include_metadata
    include_prev_next_rel σ :
  ∃ text_splits σ1 k,
    get_text_splits_from_document schema document text_splitter
      include_metadata σ
    = (Returned text_splits, σ1)
    ∧ (get_nodes_from_document schema document text_splitter
         include_metadata include_prev_next_rel σ).2
      = store_from document include_metadata σ1 (take k text_splits).
Proof.
  destruct (get_text_splits_from_document_returns schema document
              text_splitter include_metadata σ)
    as (text_splits & σ1 & Hext & _).
  exists text_splits, σ1.
  unfold get_nodes_from_document, bind. rewrite Hext.
  destruct (decide (doc_class document = OtherBaseNode)) as [Hc | Hc].
  - destruct text_splits as [|ts rest].
    + exists 0%nat. by destruct include_prev_next_rel.
    + exists 1%nat. by rewrite nodes_loop_unknown.
  - destruct (nodes_loop_known schema document include_metadata Hc
                text_splits 0 [] σ1) as (new & Hloop & _).
    exists (length text_splits). rewrite Hloop, firstn_all.
    by destruct include_prev_next_rel.
Qed.

(** X5.  The node builder's loop writes to one dictionary only, the
    document's own: whatever the outcome of [get_nodes_from_document],
    the dictionaries of the splits, and every other dictionary, are as the
    extractor left them. *)
Theorem builder_writes_only_to_document_dictionary :
  ∀ (document : BaseNode) (text_splitter : TextSplitter)
    (include_metadata include_prev_next_rel : bool) (σ : store),
    ∃ text_splits σ1,
      get_text_splits_from_document schema document text_splitter
        include_metadata σ
      = (Returned text_splits, σ1)
      ∧ ∀ r, r ≠ doc_metadata document →
          deref (get_nodes_from_document schema document text_splitter
                   include_metadata include_prev_next_rel σ).2 r
          = deref σ1 r.
Proof.
  intros document text_splitter include_metadata include_prev_next_rel σ.
  destruct (get_nodes_from_document_store document text_splitter
              include_metadata include_prev_next_rel σ)
    as (text_splits & σ1 & k & Hext & ->).
  exists text_splits, σ1. split; [done |].
  intros r Hr. by apply store_from_frame.
Qed.

(** X6.  With [include_metadata] on, the metadata of node [i] is the
    document's metadata with the metadata of the splits 0 to [i] written
    over it in that order, and when the call returns, the document's own
    metadata is that of the last node: every node inherits what the splits
    before it brought along, and so does the document. *)
Theorem metadata_accumulates_across_splits :
  ∀ (document : BaseNode) (text_splitter : TextSplitter)
    (include_prev_next_rel : bool) (σ : store),
    (doc_class document ≠ OtherBaseNode →
     ∃ nodes σ',
       get_nodes_from_document schema document text_splitter true
         include_prev_next_rel σ
       = (Returned nodes, σ'))
    ∧ ∀ nodes σ',
        get_nodes_from_document schema document text_splitter true
          include_prev_next_rel σ
        = (Returned nodes, σ') →
        ∃ text_splits σ1,
          get_text_splits_from_document schema document text_splitter true σ
          = (Returned text_splits, σ1)
          ∧ deref σ' (doc_metadata document)
            = accumulated_metadata document σ1 text_splits
          ∧ ∀ i n, nodes !! i = Some n →
              node_metadata n
              = accumulated_metadata document σ1 (take (S i) text_splits).
Proof.
  intros document text_splitter include_prev_next_rel σ.
  split; [apply get_nodes_from_document_known_returns |].
  intros nodes σ' Hrun.
  destruct (get_nodes_from_document_returned _ _ _ _ _ _ _ _ Hrun)
    as (text_splits & σ1 & new & Hext & -> & -> & Hlen & Hnodes).
  exists text_splits, σ1. split_and!; [done | apply store_from_document |].
  intros i n' Hi. rewrite returned_node_lookup in Hi.
  destruct (new !! i) as [n|] eqn:Hn; [| done]. injection Hi as <-.
  assert (Hsame : node_metadata
                    (if include_prev_next_rel then link_node new i n else n)
                  = node_metadata n).
  { destruct include_prev_next_rel; [| done].
    by destruct (link_node_content new i n) as (_ & _ & _ & _ & -> & _). }
  rewrite Hsame.
  destruct (text_splits !! i) as [ts|] eqn:Hts.
  - destruct (Hnodes i ts Hts) as (n0 & Hn0 & _ & _ & _ & _ & Hmd & _).
    rewrite Hn in Hn0. injection Hn0 as <-.
    rewrite Hmd. apply store_from_document.
  - apply lookup_ge_None in Hts. apply lookup_lt_Some in Hn. lia.
Qed.

End BuilderStore.

(** * More on the chunk extractor *)

Section ExtractorEdges.
Import NodeUtils.

Variable schema : Schema.

Lemma combine_with_document_metadata_skipped document include_metadata ts σ :
  include_metadata = false ∨ deref σ (doc_metadata document) = ∅ →
  combine_with_document_metadata document include_metadata ts σ
  = (Returned ts, σ).
Proof.
  intros Hskip. unfold combine_with_document_metadata, bind, get_state.
  destruct Hskip as [-> | ->]; [done |].
  unfold truthy. rewrite bool_decide_eq_false_2 by (by intros ?).
  by rewrite andb_false_r.
Qed.

Lemma text_splits_loop_skipped document include_metadata text_chunks :
  ∀ acc σ,
    include_metadata = false ∨ deref σ (doc_metadata document) = ∅ →
    text_splits_loop document include_metadata text_chunks acc σ
    = (Returned (acc ++ (text_split_of_chunk <$> text_chunks)), σ).
Proof.
  induction text_chunks as [|c rest IH]; intros acc σ Hskip.
  - simpl. by rewrite app_nil_r.
  - cbn [text_splits_loop]. unfold bind.
    rewrite combine_with_document_metadata_skipped by done.
    rewrite IH by done. by rewrite fmap_cons, <- (assoc_L (++)).
Qed.

(** X7.  When [include_metadata] is off, or the document's metadata is
    empty, the plain-split path merges nothing: the splits are the chunks as
    the splitter returned them (a bare string has no metadata, a fragment
    keeps its own dictionary), no dictionary is created and the store is
    untouched. *)
Theorem extractor_merges_nothing_without_metadata :
  ∀ (document : BaseNode) (split_text : string → list Chunk)
    (include_metadata : bool) (σ : store),
    include_metadata = false ∨ deref σ (doc_metadata document) = ∅ →
    get_text_splits_from_document schema document
      (PlainTextSplitter split_text) include_metadata σ
    = (Returned (text_split_of_chunk <$> split_text (get_content document)),
       σ).
Proof.
  intros document split_text include_metadata σ Hskip. simpl.
  by rewrite text_splits_loop_skipped.
Qed.

(** X8.  The extractor never changes the document's own metadata, on either
    path and with either setting of [include_metadata]. *)
Theorem extractor_keeps_document_metadata :
  ∀ (document : BaseNode) (text_splitter : TextSplitter)
    (include_metadata : bool) (σ : store),
    ∃ text_splits σ1,
      get_text_splits_from_document schema document text_splitter
        include_metadata σ
      = (Returned text_splits, σ1)
      ∧ deref σ1 (doc_metadata document) = deref σ (doc_metadata document).
Proof.
  intros document text_splitter include_metadata σ.
  destruct text_splitter as [f | f].
  - by eexists _, _.
  - destruct (decide (include_metadata = false
                      ∨ deref σ (doc_metadata document) = ∅)) as [Hskip | Hon].
    + eexists _, _. split; [| reflexivity].
      simpl. by apply text_splits_loop_skipped.
    + assert (include_metadata = true) as ->
        by (destruct include_metadata; tauto).
      assert (Hmd : deref σ (doc_metadata document) ≠ ∅) by tauto.
      assert (Hinv : extractor_inv document σ σ)
        by (split; [done | by left]).
      destruct (text_splits_loop_merges document σ Hmd
                  (f (get_content document)) [] σ Hinv)
        as (new & σ1 & Hloop & Hinv1 & _).
      exists new, σ1. split; [done |].
      by apply extractor_inv_document.
Qed.

(** A split has the overlap count of the chunk it comes from. *)
Lemma text_splits_loop_overlaps document include_metadata text_chunks :
  ∀ acc σ new σ',
    text_splits_loop document include_metadata text_chunks acc σ
    = (Returned (acc ++ new), σ') →
    num_char_overlap <$> new
    = (λ c, num_char_overlap (text_split_of_chunk c)) <$> text_chunks.
Proof.
  induction text_chunks as [|c rest IH]; intros acc σ new σ' Hrun.
  - simpl in Hrun. unfold ret in Hrun.
    injection Hrun as Hnew _.
    rewrite <- (app_nil_r acc) in Hnew at 1.
    by apply app_inv_head in Hnew as <-.
  - destruct (combine_with_document_metadata_returns document
                include_metadata (text_split_of_chunk c) σ)
      as (ts & σ1 & Hstep & _ & Hov & _).
    cbn [text_splits_loop] in Hrun. unfold bind in Hrun.
    rewrite Hstep in Hrun.
    destruct (text_splits_loop_returns document include_metadata rest
                (acc ++ [ts]) σ1) as (new' & σ'' & Hloop & _).
    rewrite Hloop in Hrun. injection Hrun as Hnew _.
    rewrite <- (assoc_L (++)) in Hnew. apply app_inv_head in Hnew as <-.
    simpl. rewrite Hov. f_equal. by eapply IH.
Qed.

End ExtractorEdges.

(** * More on the node builder *)

Section BuilderFurther.
Import NodeUtils.

Variable schema : Schema.

(** The offsets of the returned nodes, split by split. *)
Lemma get_nodes_from_document_offsets document text_splitter
    include_metadata include_prev_next_rel σ nodes σ' :
  get_nodes_from_document schema document text_splitter include_metadata
    include_prev_next_rel σ
  = (Returned nodes, σ') →
  ∃ text_splits σ1,
    get_text_splits_from_document schema document text_splitter
      include_metadata σ
    = (Returned text_splits, σ1)
    ∧ length nodes = length text_splits
    ∧ ∀ i ts, text_splits !! i = Some ts →
        ∃ n, nodes !! i = Some n
             ∧ start_char_idx n
               = (λ o, cursor_from 0 (take i text_splits) - o)
                   <$> num_char_overlap ts
             ∧ end_char_idx n
               = (λ o, cursor_from 0 (take i text_splits) - o
                       + len (text_chunk ts))
                   <$> num_char_overlap ts.
Proof.
  intros Hrun.
  destruct (get_nodes_from_document_returned _ _ _ _ _ _ _ _ Hrun)
    as (text_splits & σ1 & new & Hext & -> & _ & Hlen & Hnodes).
  exists text_splits, σ1. split_and!; [done | |].
  { destruct include_prev_next_rel; by rewrite ?link_pass_length. }
  intros i ts Hi.
  destruct (Hnodes i ts Hi) as (n & Hn & _ & _ & Hstart & Hend & _).
  rewrite returned_node_lookup, Hn. simpl. eexists. split; [done |].
  destruct include_prev_next_rel; [| done].
  destruct (link_node_content new i n) as (_ & _ & -> & -> & _). done.
Qed.

(** X9.  Consecutive offsets.  When two neighbouring splits carry overlap
    counts [k] and [k'], the second node starts at [e + 1 + k - k'], where
    [e] is the end of the first node: the cursor moves on by the whole
    length of a chunk plus one, whatever the chunk shares with its
    predecessor.  So with no overlap a node starts one position after its
    predecessor ends, and the starts do not decrease as long as [k'] is at
    most [len (first chunk) + 1 + k].  The first node starts at [- k]. *)
Theorem consecutive_offsets :
  ∀ (document : BaseNode) (text_splitter : TextSplitter)
    (include_metadata include_prev_next_rel : bool) (σ : store),
    (doc_class document ≠ OtherBaseNode →
     ∃ nodes σ',
       get_nodes_from_document schema document text_splitter
         include_metadata include_prev_next_rel σ
       = (Returned nodes, σ'))
    ∧ ∀ nodes σ',
        get_nodes_from_document schema document text_splitter
          include_metadata include_prev_next_rel σ
        = (Returned nodes, σ') →
        ∃ text_splits σ1,
          get_text_splits_from_document schema document text_splitter
            include_metadata σ
          = (Returned text_splits, σ1)
          ∧ (∀ ts k, text_splits !! 0%nat = Some ts →
               num_char_overlap ts = Some k →
               ∃ n, nodes !! 0%nat = Some n ∧ start_char_idx n = Some (- k))
          ∧ ∀ i ts ts' k k',
              text_splits !! i = Some ts →
              text_splits !! S i = Some ts' →
              num_char_overlap ts = Some k →
              num_char_overlap ts' = Some k' →
              ∃ n n' s e s',
                nodes !! i = Some n
                ∧ nodes !! S i = Some n'
                ∧ start_char_idx n = Some s
                ∧ end_char_idx n = Some e
                ∧ start_char_idx n' = Some s'
                ∧ s' = e + 1 + k - k'
                ∧ (k = 0 → k' = 0 → s' = e + 1)
                ∧ (k' ≤ len (text_chunk ts) + 1 + k → s ≤ s').
Proof.
  intros document text_splitter include_metadata include_prev_next_rel σ.
  split; [apply get_nodes_from_document_known_returns |].
  intros nodes σ' Hrun.
  destruct (get_nodes_from_document_offsets _ _ _ _ _ _ _ Hrun)
    as (text_splits & σ1 & Hext & _ & Hoff).
  exists text_splits, σ1. split_and!; [done | |].
  - intros ts k Hts Hk.
    destruct (Hoff 0%nat ts Hts) as (n & Hn & Hstart & _).
    exists n. split; [done |]. by rewrite Hstart, Hk.
  - intros i ts ts' k k' Hts Hts' Hk Hk'.
    destruct (Hoff i ts Hts) as (n & Hn & Hstart & Hend).
    destruct (Hoff (S i) ts' Hts') as (n' & Hn' & Hstart' & _).
    rewrite Hk in Hstart, Hend. rewrite Hk' in Hstart'.
    rewrite (cursor_from_step _ _ _ _ Hts) in Hstart'.
    eexists n, n', _, _, _.
    split_and!; [done | done | done | done | done | simpl; lia.. ].
Qed.

(** X10.  On the plain-split path a node has character offsets only if its
    chunk came as a [TextSplit] with an overlap count: when no chunk of
    [split_text] does, every returned node has both offsets unset. *)
Theorem plain_chunks_give_no_offsets :
  ∀ (document : BaseNode) (split_text : string → list Chunk)
    (include_metadata include_prev_next_rel : bool) (σ : store),
    Forall (λ c, num_char_overlap (text_split_of_chunk c) = None)
           (split_text (get_content document)) →
    (doc_class document ≠ OtherBaseNode →
     ∃ nodes σ',
       get_nodes_from_document schema document (PlainTextSplitter split_text)
         include_metadata include_prev_next_rel σ
       = (Returned nodes, σ'))
    ∧ ∀ nodes σ',
        get_nodes_from_document schema document
          (PlainTextSplitter split_text) include_metadata
          include_prev_next_rel σ
        = (Returned nodes, σ') →
        Forall (λ n, start_char_idx n = None ∧ end_char_idx n = None) nodes.
Proof.
  intros document split_text include_metadata include_prev_next_rel σ Hnone.
  split; [apply get_nodes_from_document_known_returns |].
  intros nodes σ' Hrun.
  destruct (get_nodes_from_document_offsets _ _ _ _ _ _ _ Hrun)
    as (text_splits & σ1 & Hext & Hlen & Hoff).
  simpl in Hext.
  pose proof (text_splits_loop_overlaps document include_metadata
                (split_text (get_content document)) [] σ text_splits σ1 Hext)
    as Hov.
  apply Forall_lookup. intros i n Hn.
  destruct (text_splits !! i) as [ts|] eqn:Hts.
  - destruct (Hoff i ts Hts) as (n0 & Hn0 & Hstart & Hend).
    rewrite Hn in Hn0. injection Hn0 as <-.
    assert (Hts_none : num_char_overlap ts = None).
    { apply (f_equal (.!! i)) in Hov.
      rewrite !list_lookup_fmap, Hts in Hov. simpl in Hov.
      destruct (split_text (get_content document) !! i) as [c|] eqn:Hc;
        [| done].
      injection Hov as ->. by apply (Forall_lookup_1 _ _ _ _ Hnone Hc). }
    by rewrite Hstart, Hend, Hts_none.
  - apply lookup_ge_None in Hts. apply lookup_lt_Some in Hn. lia.
Qed.

(** Every node the loop returns comes out of the loop body. *)
Lemma nodes_loop_forall (P : Node → Prop) document include_metadata :
  (∀ c k ts σ c' n σ',
     nodes_loop_body schema document include_metadata c k ts σ
     = (Returned (c', n), σ') → P n) →
  ∀ text_splits c acc σ nodes σ',
    nodes_loop schema document include_metadata text_splits c acc σ
    = (Returned nodes, σ') →
    Forall P acc → Forall P nodes.
Proof.
  intros Hbody text_splits.
  induction text_splits as [|ts rest IH]; intros c acc σ nodes σ' Hrun Hacc.
  - simpl in Hrun. unfold ret in Hrun. by simplify_eq.
  - cbn [nodes_loop] in Hrun. unfold bind in Hrun.
    destruct (nodes_loop_body schema document include_metadata c
                (length acc) ts σ) as [[[c' n] | e] σ1] eqn:Hstep; [| done].
    eapply IH; [exact Hrun |].
    apply Forall_app. split; [done |].
    apply Forall_singleton. by eapply Hbody.
Qed.

Lemma nodes_loop_body_copies document include_metadata c k ts σ c' n σ' :
  nodes_loop_body schema document include_metadata c k ts σ
  = (Returned (c', n), σ') →
  node_copies_document schema document n.
Proof.
  destruct (compute_node_metadata_returns document include_metadata ts σ)
    as (d & σ1 & Hrun & _).
  unfold nodes_loop_body, bind. rewrite Hrun. simpl.
  unfold node_copies_document.
  destruct (doc_class document); [| | done];
    unfold document_as_related_node_info, bind, get_state, ret;
    intros [= <- <- <-]; by simpl.
Qed.

Lemma link_node_copies document nodes i n :
  node_copies_document schema document n →
  node_copies_document schema document (link_node nodes i n).
Proof.
  unfold node_copies_document, link_node.
  by repeat case_match.
Qed.

(** X11.  The class of a node follows the class of its document, and the
    node takes its embedding from the document as it is.  A node of an
    image document is an [ImageNode] with the document's image and with the
    defaults of the node class for the exclusion lists, the separator and
    the template; a node of a plain document is a [TextNode] without image,
    with the document's exclusion lists, separator and template. *)
Theorem nodes_copy_their_document :
  ∀ (document : BaseNode) (text_splitter : TextSplitter)
    (include_metadata include_prev_next_rel : bool) (σ : store),
    (doc_class document ≠ OtherBaseNode →
     ∃ nodes σ',
       get_nodes_from_document schema document text_splitter
         include_metadata include_prev_next_rel σ
       = (Returned nodes, σ'))
    ∧ ∀ nodes σ',
        get_nodes_from_document schema document text_splitter
          include_metadata include_prev_next_rel σ
        = (Returned nodes, σ') →
        Forall (node_copies_document schema document) nodes.
Proof.
  intros document text_splitter include_metadata include_prev_next_rel σ.
  split; [apply get_nodes_from_document_known_returns |].
  intros nodes σ' Hrun.
  unfold get_nodes_from_document, bind in Hrun.
  destruct (get_text_splits_from_document _ _ _ _ _)
    as [[text_splits | e] σ1]; [| done].
  destruct (nodes_loop _ _ _ _ _ _ _) as [[new | e] σ2] eqn:Hloop; [| done].
  assert (Hnew : Forall (node_copies_document schema document) new).
  { eapply (nodes_loop_forall _ document include_metadata);
      [| exact Hloop | done].
    intros. by eapply nodes_loop_body_copies. }
  unfold ret in Hrun.
  destruct include_prev_next_rel; simplify_eq; [| done].
  apply Forall_lookup. intros i n Hn. rewrite link_pass_lookup in Hn.
  destruct (new !! i) as [n0|] eqn:Hn0; [| done]. injection Hn as <-.
  apply link_node_copies. by eapply Forall_lookup_1.
Qed.

(** X17.  No rollback on failure.  When the document is neither plain nor
    image, [include_metadata] is on and the first split has metadata, the
    [ValueError] comes after the merge of that split: the call raises, and
    the document's metadata has received the first split's metadata. *)
Theorem failed_build_has_written_first_split :
  ∀ (document : BaseNode) (text_splitter : TextSplitter)
    (include_prev_next_rel : bool) (σ σ1 : store)
    (ts : TextSplit) (rest : list TextSplit) (m : ref),
    doc_class document = OtherBaseNode →
    get_text_splits_from_document schema document text_splitter true σ
    = (Returned (ts :: rest), σ1) →
    metadata ts = Some m →
    ∃ σ',
      get_nodes_from_document schema document text_splitter true
        include_prev_next_rel σ
      = (Raised (ValueError "Unknown document type"), σ')
      ∧ deref σ' (doc_metadata document)
        = deref σ1 m ∪ deref σ1 (doc_metadata document)
      ∧ ∀ r, r ≠ doc_metadata document → deref σ' r = deref σ1 r.
Proof.
  intros document text_splitter include_prev_next_rel σ σ1 ts rest m
    Hclass Hext Hm.
  eexists. split_and!.
  - unfold get_nodes_from_document, bind.
    by rewrite Hext, nodes_loop_unknown.
  - destruct (compute_node_metadata_returns document true ts σ1)
      as (d & σ' & Hrun & _ & ->).
    rewrite Hrun, Hm. simpl. by rewrite deref_insert, decide_True.
  - intros r Hr.
    destruct (compute_node_metadata_returns document true ts σ1)
      as (d & σ' & Hrun & _ & ->).
    rewrite Hrun, Hm. simpl. by rewrite deref_insert, decide_False.
Qed.

End BuilderFurther.

(** * The two merges, end to end *)

Section PlainPathEndToEnd.
Import NodeUtils.

Variable schema : Schema.

(** Keys that every merged split holds with one value keep that value in
    the accumulated dictionary. *)
Lemma accumulated_metadata_keeps document σ (base : dict) text_splits :
  (∀ k v, base !! k = Some v →
          deref σ (doc_metadata document) !! k = Some v) →
  (∀ ts m, ts ∈ text_splits → metadata ts = Some m →
           ∀ k v, base !! k = Some v → deref σ m !! k = Some v) →
  ∀ k v, base !! k = Some v →
         accumulated_metadata document σ text_splits !! k = Some v.
Proof.
  intros Hdoc.
  induction text_splits as [|ts pre IH] using rev_ind;
    intros Hsplits k v Hk; [by apply Hdoc |].
  assert (Hpre : accumulated_metadata document σ pre !! k = Some v).
  { apply IH; [| done]. intros ts' m Hin. apply Hsplits. set_solver. }
  rewrite accumulated_metadata_snoc.
  destruct (metadata ts) as [m|] eqn:Hm; [| done].
  case_decide; [done |].
  apply lookup_union_Some_l. eapply (Hsplits ts m); [set_solver | done..].
Qed.

(** The metadata of the returned nodes, node by node. *)
Lemma get_nodes_from_document_metadata document text_splitter
    include_prev_next_rel σ nodes σ' :
  get_nodes_from_document schema document text_splitter true
    include_prev_next_rel σ
  = (Returned nodes, σ') →
  ∃ text_splits σ1,
    get_text_splits_from_document schema document text_splitter true σ
    = (Returned text_splits, σ1)
    ∧ deref σ' (doc_metadata document)
      = accumulated_metadata document σ1 text_splits
    ∧ ∀ i n, nodes !! i = Some n →
        node_metadata n
        = accumulated_metadata document σ1 (take (S i) text_splits).
Proof.
  intros Hrun.
  destruct (get_nodes_from_document_returned _ _ _ _ _ _ _ _ Hrun)
    as (text_splits & σ1 & new & Hext & -> & -> & Hlen & Hnodes).
  exists text_splits, σ1. split_and!; [done | apply store_from_document |].
  intros i n' Hi. rewrite returned_node_lookup in Hi.
  destruct (new !! i) as [n|] eqn:Hn; [| done]. injection Hi as <-.
  assert (Hsame : node_metadata
                    (if include_prev_next_rel then link_node new i n else n)
                  = node_metadata n).
  { destruct include_prev_next_rel; [| done].
    by destruct (link_node_content new i n) as (_ & _ & _ & _ & -> & _). }
  rewrite Hsame.
  destruct (text_splits !! i) as [ts|] eqn:Hts.
  - destruct (Hnodes i ts Hts) as (n0 & Hn0 & _ & _ & _ & _ & Hmd & _).
    rewrite Hn in Hn0. injection Hn0 as <-.
    rewrite Hmd. apply store_from_document.
  - apply lookup_ge_None in Hts. apply lookup_lt_Some in Hn. lia.
Qed.

(** X12.  End to end on the plain-split path, the document wins: with
    [include_metadata] on and a document that has metadata, every returned
    node holds, under every key of the document's metadata, the document's
    value, whatever the chunk brought under that key; and so does the
    document itself after the call.  The builder's split-over-document
    merge cannot show here, because the extractor has already written the
    document's values into every split. *)
Theorem document_values_survive_on_plain_path :
  ∀ (document : BaseNode) (split_text : string → list Chunk)
    (include_prev_next_rel : bool) (σ : store),
    deref σ (doc_metadata document) ≠ ∅ →
    (doc_class document ≠ OtherBaseNode →
     ∃ nodes σ',
       get_nodes_from_document schema document (PlainTextSplitter split_text)
         true include_prev_next_rel σ
       = (Returned nodes, σ'))
    ∧ ∀ nodes σ',
        get_nodes_from_document schema document
          (PlainTextSplitter split_text) true include_prev_next_rel σ
        = (Returned nodes, σ') →
        ∀ k v, deref σ (doc_metadata document) !! k = Some v →
          Forall (λ n, node_metadata n !! k = Some v) nodes
          ∧ deref σ' (doc_metadata document) !! k = Some v.
Proof.
  intros document split_text include_prev_next_rel σ Hmd.
  split; [apply get_nodes_from_document_known_returns |].
  intros nodes σ' Hrun k v Hk.
  destruct (get_nodes_from_document_metadata _ _ _ _ _ _ Hrun)
    as (text_splits & σ1 & Hext & Hdoc & Hnodes).
  assert (Hinv : extractor_inv document σ σ) by (split; [done | by left]).
  destruct (text_splits_loop_merges document σ Hmd
              (split_text (get_content document)) [] σ Hinv)
    as (new & σ1' & Hloop & Hinv1 & _ & Hlen & Hsplits).
  simpl in Hext. rewrite Hloop in Hext. injection Hext as -> ->.
  assert (Hkeep : ∀ l, (∀ ts, ts ∈ l → ts ∈ text_splits) →
            accumulated_metadata document σ1 l !! k = Some v).
  { intros l Hl.
    apply (accumulated_metadata_keeps document σ1
             (deref σ (doc_metadata document))); [| | done].
    - intros k' v' Hk'. by rewrite (extractor_inv_document _ _ _ Hinv1).
    - intros ts m Hin Hm k' v' Hk'.
      apply Hl, list_elem_of_lookup in Hin as [i Hi].
      assert (is_Some (split_text (get_content document) !! i)) as [c Hc].
      { apply lookup_lt_is_Some. rewrite <- Hlen.
        by eapply lookup_lt_Some. }
      destruct (Hsplits i c Hc) as (ts' & m' & Hts' & _ & Hm' & Hmerged).
      rewrite Hi in Hts'. injection Hts' as <-.
      rewrite Hm in Hm'. injection Hm' as <-.
      rewrite Hmerged. by apply lookup_union_Some_l. }
  split.
  - apply Forall_lookup. intros i n Hn. rewrite (Hnodes i n Hn).
    apply Hkeep. intros ts Hin.
    apply elem_of_take in Hin as (j & Hj & _).
    apply list_elem_of_lookup. eauto.
  - rewrite Hdoc. by apply Hkeep.
Qed.

End PlainPathEndToEnd.

(** * More on the query engine *)

Section QueryEngineFurther.
Import QueryEngine QueryEngineSetup.
Context {NodeWithScore Response : Type}.

Abbreviation Engine' := (RetrieverQueryEngine NodeWithScore Response).
Abbreviation Trace' := (list (SinkCall NodeWithScore Response)).

Lemma retrieve_outcome (self : Engine') qb (tr : Trace') :
  retrieve self qb tr = (retrieval_outcome self qb, tr).
Proof. apply retrieve_silent. Qed.

(** [_query] in full: how far it gets decides what the sink has seen. *)
Lemma _query_cases (self : Engine') qb (tr : Trace') :
  _query self qb tr
  = match retrieval_outcome self qb with
    | Raised e => (Raised e, tr ++ query_started self qb tr)
    | Returned nodes =>
        match synthesizer_synthesize (_response_synthesizer self) qb nodes
                None with
        | Raised e => (Raised e, tr ++ query_retrieved self qb tr nodes)
        | Returned response =>
            (Returned response,
             tr ++ query_finished self qb tr nodes response)
        end
    end.
Proof.
  unfold _query, bind, on_event_start, on_event_end, call, ret.
  rewrite retrieve_outcome.
  unfold query_finished, query_retrieved, query_started.
  destruct (retrieval_outcome self qb) as [nodes | e].
  - destruct (synthesizer_synthesize _ qb nodes None) as [response | e];
      by rewrite <- !(assoc_L (++)).
  - by rewrite <- !(assoc_L (++)).
Qed.

(** X13.  A postprocessor that raises ends the chain: when the
    postprocessors before it have returned [out] and it raises on [out],
    the chain raises that exception, the postprocessors registered after it
    make no difference, and [retrieve] raises it too. *)
Theorem raising_postprocessor_ends_the_chain :
  ∀ (r : BaseRetriever NodeWithScore)
    (s : BaseSynthesizer NodeWithScore Response)
    (cm : CallbackManager NodeWithScore Response)
    (ps qs : list (BaseNodePostprocessor NodeWithScore))
    (p : BaseNodePostprocessor NodeWithScore)
    (nodes out : list NodeWithScore) (qb : QueryBundle) (tr : Trace')
    (e : PyExn),
    (_apply_node_postprocessors (mkEngine r s ps cm) nodes qb tr).1
    = Returned out →
    postprocess_nodes p out qb = Raised e →
    _apply_node_postprocessors (mkEngine r s (ps ++ p :: qs) cm) nodes qb tr
    = (Raised e, tr)
    ∧ (retriever_retrieve r qb = Returned nodes →
       retrieve (mkEngine r s (ps ++ p :: qs) cm) qb tr = (Raised e, tr)).
Proof.
  intros r s cm ps qs p nodes out qb tr e Hps Hp.
  unfold _apply_node_postprocessors in Hps. simpl in Hps.
  rewrite postprocessors_loop_fold in Hps. simpl in Hps.
  assert (Hchain : chain_fold (ps ++ p :: qs) nodes qb = Raised e).
  { rewrite chain_fold_app, Hps. unfold chain_fold. simpl. rewrite Hp.
    apply foldl_then_postprocess_raised. }
  split.
  - unfold _apply_node_postprocessors. simpl.
    by rewrite postprocessors_loop_fold, Hchain.
  - intros Hr. rewrite retrieve_silent. simpl. by rewrite Hr, Hchain.
Qed.

(** X14.  Instrumentation is an observer.  The outcome of [_query], value
    or exception, is the outcome of the standalone [retrieve] followed by
    the standalone [synthesize] without additional source nodes; it does
    not depend on the callback manager or on what the sink has seen before;
    and [_query] only appends to the sink's record, between two and four
    calls. *)
Theorem instrumentation_is_an_observer :
  ∀ (r : BaseRetriever NodeWithScore)
    (s : BaseSynthesizer NodeWithScore Response)
    (ps : list (BaseNodePostprocessor NodeWithScore))
    (cm cm' : CallbackManager NodeWithScore Response)
    (qb : QueryBundle) (tr tr' : Trace'),
    (_query (mkEngine r s ps cm) qb tr).1
    = ((let! nodes := retrieve (mkEngine r s ps cm) qb in
        synthesize (mkEngine r s ps cm) qb nodes None) tr).1
    ∧ (_query (mkEngine r s ps cm) qb tr).1
      = (_query (mkEngine r s ps cm') qb tr').1
    ∧ ∃ added,
        (_query (mkEngine r s ps cm) qb tr).2 = tr ++ added
        ∧ (2 ≤ length added ≤ 4)%nat.
Proof.
  intros r s ps cm cm' qb tr tr'.
  rewrite !_query_cases. unfold bind, synthesize, call.
  rewrite retrieve_outcome.
  unfold retrieval_outcome. simpl.
  destruct (retriever_retrieve r qb) as [raw | e].
  - destruct (chain_fold ps raw qb) as [nodes | e].
    + destruct (synthesizer_synthesize s qb nodes None) as [response | e];
        (split_and!; [done | done |]); eexists; (split; [done |]);
        simpl; lia.
    + split_and!; [done | done |]. eexists. split; [done |]. simpl. lia.
  - split_and!; [done | done |]. eexists. split; [done |]. simpl. lia.
Qed.

(** X15.  [with_retriever] rebinds the retriever and nothing else.  The
    derived engine has the new retriever and the synthesizer, the
    postprocessors and the callback manager of the engine it comes from;
    its [retrieve] puts the new retriever's nodes through the old chain;
    rebinding an engine's own retriever gives the engine back, and of two
    rebindings the second counts. *)
Theorem with_retriever_rebinds_the_retriever_only :
  ∀ (self : Engine') (r r' : BaseRetriever NodeWithScore),
    retriever (with_retriever self r) = r
    ∧ _response_synthesizer (with_retriever self r)
      = _response_synthesizer self
    ∧ _node_postprocessors (with_retriever self r)
      = _node_postprocessors self
    ∧ callback_manager (with_retriever self r) = callback_manager self
    ∧ with_retriever self (retriever self) = self
    ∧ with_retriever (with_retriever self r) r' = with_retriever self r'
    ∧ (∀ qb (tr : Trace'),
         retrieve (with_retriever self r) qb tr
         = (match retriever_retrieve r qb with
            | Returned raw => chain_fold (_node_postprocessors self) raw qb
            | Raised e => Raised e
            end, tr))
    ∧ (∀ qb nodes extra (tr : Trace'),
         synthesize (with_retriever self r) qb nodes extra tr
         = synthesize self qb nodes extra tr).
Proof.
  intros self r r'. split_and!; try done.
  - by destruct self.
  - intros qb tr. by rewrite retrieve_silent.
Qed.

Section FromArgs.

Variable Prompt : Type.
Variable get_response_synthesizer :
  SynthesizerArgs NodeWithScore Response Prompt
  → BaseSynthesizer NodeWithScore Response.
Variable empty_callback_manager : CallbackManager NodeWithScore Response.

(** X16.  The pipeline [from_args] builds from a retriever, a synthesizer
    and a service context, without postprocessors.  The synthesizer that is
    passed in is used as it is: the response mode, the templates and the
    two flags have no effect on the engine.  When the retriever returns
    [raw] and the synthesizer answers [response], a query returns
    [response], the RETRIEVE end event carries [raw] itself, and the four
    events go to the service context's callback manager. *)
Theorem from_args_default_pipeline :
  ∀ (r : BaseRetriever NodeWithScore)
    (s : BaseSynthesizer NodeWithScore Response)
    (sc : ServiceContext NodeWithScore Response)
    (mode mode' : ResponseMode) (t1 t2 t3 t1' t2' t3' : option Prompt)
    (a st a' st' : bool) (qb : QueryBundle) (tr : Trace')
    (raw : list NodeWithScore) (response : Response),
    retriever_retrieve r qb = Returned raw →
    synthesizer_synthesize s qb raw None = Returned response →
    let self :=
      from_args get_response_synthesizer empty_callback_manager r (Some s)
        (Some sc) None mode t1 t2 t3 a st in
    let query_id := new_event_id (sc_callback_manager sc) tr QUERY in
    let e1 := EventStart QUERY (QUERY_STR (query_str qb)) query_id in
    let retrieve_id :=
      new_event_id (sc_callback_manager sc) (tr ++ [e1]) RETRIEVE in
    self
    = from_args get_response_synthesizer empty_callback_manager r (Some s)
        (Some sc) None mode' t1' t2' t3' a' st'
    ∧ retrieve self qb tr = (Returned raw, tr)
    ∧ _query self qb tr
      = (Returned response,
         tr ++ [ e1;
                 EventStart RETRIEVE NoPayload retrieve_id;
                 EventEnd RETRIEVE (NODES raw) retrieve_id;
                 EventEnd QUERY (RESPONSE response) query_id ]).
Proof.
  intros r s sc mode mode' t1 t2 t3 t1' t2' t3' a st a' st' qb tr raw
    response Hr Hs self query_id e1 retrieve_id.
  split_and!; [done | |].
  - rewrite retrieve_silent. simpl. by rewrite Hr.
  - rewrite _query_cases. unfold retrieval_outcome. simpl.
    rewrite Hr. unfold chain_fold. simpl. by rewrite Hs.
Qed.

End FromArgs.

End QueryEngineFurther.

(** * Concrete runs *)


Section NodeUtilsRuns.
Import NodeUtils Scenario.

(** C1, at a concrete input.  The report's metadata is [{"source":
    "report"}] before the call; after [get_nodes_from_document] with
    [include_metadata] on it also holds the fragments' ["title"] and
    ["page"]: the builder has written into the caller's document. *)
Theorem document_metadata_changed_by_build :
  deref σ0 (doc_metadata report) = source_only
  ∧ ∃ nodes σ',
      get_nodes_from_document schema report by_fragment true false σ0
      = (Returned nodes, σ')
      ∧ deref σ' (doc_metadata report)
        = page_only ∪ (title_only ∪ source_only)
      ∧ deref σ' (doc_metadata report) !! "title" = Some (PyStr "Intro")
      ∧ deref σ0 (doc_metadata report) !! "title" = None.
Proof.
  split; [by vm_compute |].
  eexists _, _. split; [vm_compute; reflexivity |].
  by vm_compute.
Qed.

(** C2, at a concrete input.  The node of the second fragment, whose own
    metadata is [{"page": 2}], carries the first fragment's ["title"] as
    well: its metadata is not the document's [{"source": "report"}]
    overwritten by the split's. *)
Theorem second_node_inherits_first_split_metadata :
  ∃ n0 n1 σ',
    get_nodes_from_document schema report by_fragment true false σ0
    = (Returned [n0; n1], σ')
    ∧ node_metadata n1 = page_only ∪ (title_only ∪ source_only)
    ∧ node_metadata n1 !! "title" = Some (PyStr "Intro")
    ∧ (page_only ∪ source_only) !! "title" = None.
Proof.
  eexists _, _, _. split; [vm_compute; reflexivity |].
  by vm_compute.
Qed.

(** C8 as stated fails: a document that is neither plain nor image, with a
    splitter that yields no chunk, gets the empty node list and no error. *)
Lemma unknown_document_without_chunks_returns :
  doc_class a_text_node = OtherBaseNode
  ∧ get_nodes_from_document schema a_text_node no_chunks true false σ0
    = (Returned [], σ0).
Proof. split; reflexivity. Qed.

Lemma extractor_merge_document_wins_witness :
  ∃ text_splits σ1,
    get_text_splits_from_document schema report
      (PlainTextSplitter fragments) true σ0
    = (Returned text_splits, σ1)
    ∧ deref σ1 (doc_metadata report) = deref σ0 (doc_metadata report)
    ∧ length text_splits = length (fragments (get_content report))
    ∧ ∀ i c, fragments (get_content report) !! i = Some c →
        ∃ ts m, text_splits !! i = Some ts
                ∧ metadata ts = Some m
                ∧ deref σ1 m
                  = deref σ0 (doc_metadata report) ∪ own_metadata σ0 c
                ∧ ∀ k v, deref σ0 (doc_metadata report) !! k = Some v →
                         deref σ1 m !! k = Some v.
Proof.
  apply (extractor_merge_document_wins schema report fragments σ0).
  intros H. vm_compute in H. discriminate H.
Defined.

End NodeUtilsRuns.

Section QueryEngineRuns.
Import QueryEngine QueryScenario.

Lemma query_emits_four_events_witness :
  _query engine a_query []
  = (Returned "answer",
     [ EventStart QUERY (QUERY_STR "why?") "0";
       EventStart RETRIEVE NoPayload "1";
       EventEnd RETRIEVE (NODES [5; 4; 3]%nat) "1";
       EventEnd QUERY (RESPONSE "answer") "0" ])
  ∧ retrieve engine a_query [] = (Returned [5; 4; 3]%nat, []).
Proof.
  apply (query_emits_four_events engine a_query [] [5; 4; 3]%nat "answer");
    reflexivity.
Defined.

Lemma blocking_and_suspendable_agree_witness :
  _aquery engine a_query [] = _query engine a_query []
  ∧ aretrieve engine a_query [] = retrieve engine a_query []
  ∧ ∀ nodes extra,
      asynthesize engine a_query nodes extra []
      = synthesize engine a_query nodes extra [].
Proof.
  apply (blocking_and_suspendable_agree engine); intros; reflexivity.
Defined.

(** With the retriever down, the query raises its error and the sink has
    seen the two start events only. *)
Lemma failure_leaves_start_events_open_witness :
  _query cut_off a_query []
  = (Raised (UpstreamFailure "retriever"),
     [ EventStart QUERY (QUERY_STR "why?") "0";
       EventStart RETRIEVE NoPayload "1" ]).
Proof.
  apply (failure_leaves_start_events_open cut_off a_query []). reflexivity.
Defined.

End QueryEngineRuns.

Section FurtherRuns.
Import NodeUtils Scenario QueryEngine QueryEngineSetup QueryScenario.

Lemma extractor_merges_nothing_without_metadata_witness :
  get_text_splits_from_document schema report (PlainTextSplitter fragments)
    false σ0
  = (Returned (text_split_of_chunk <$> fragments (get_content report)), σ0).
Proof.
  apply (extractor_merges_nothing_without_metadata schema report fragments
           false σ0).
  by left.
Defined.

Lemma plain_chunks_give_no_offsets_witness :
  (doc_class report ≠ OtherBaseNode →
   ∃ nodes σ',
     get_nodes_from_document schema report (PlainTextSplitter fragments)
       true true σ0
     = (Returned nodes, σ'))
  ∧ ∀ nodes σ',
      get_nodes_from_document schema report (PlainTextSplitter fragments)
        true true σ0
      = (Returned nodes, σ') →
      Forall (λ n, start_char_idx n = None ∧ end_char_idx n = None) nodes.
Proof.
  apply (plain_chunks_give_no_offsets schema report fragments true true σ0).
  by repeat constructor.
Defined.

Lemma document_values_survive_on_plain_path_witness :
  (doc_class report ≠ OtherBaseNode →
   ∃ nodes σ',
     get_nodes_from_document schema report (PlainTextSplitter fragments)
       true false σ0
     = (Returned nodes, σ'))
  ∧ ∀ nodes σ',
      get_nodes_from_document schema report (PlainTextSplitter fragments)
        true false σ0
      = (Returned nodes, σ') →
      ∀ k v, deref σ0 (doc_metadata report) !! k = Some v →
        Forall (λ n, node_metadata n !! k = Some v) nodes
        ∧ deref σ' (doc_metadata report) !! k = Some v.
Proof.
  apply (document_values_survive_on_plain_path schema report fragments
           false σ0).
  intros H. vm_compute in H. discriminate H.
Defined.

Lemma failed_build_has_written_first_split_witness :
  ∃ σ',
    get_nodes_from_document schema a_text_node by_fragment true false σ0
    = (Raised (ValueError "Unknown document type"), σ')
    ∧ deref σ' (doc_metadata a_text_node)
      = deref σ0_extracted 2%positive
        ∪ deref σ0_extracted (doc_metadata a_text_node)
    ∧ ∀ r, r ≠ doc_metadata a_text_node → deref σ' r = deref σ0_extracted r.
Proof.
  apply (failed_build_has_written_first_split schema a_text_node
           by_fragment false σ0 σ0_extracted
           (mkTextSplit "Intro" (Some 2%positive) None)
           [mkTextSplit "Body" (Some 3%positive) None] 2%positive).
  - reflexivity.
  - vm_compute. reflexivity.
  - reflexivity.
Defined.

Lemma raising_postprocessor_ends_the_chain_witness :
  _apply_node_postprocessors
    (mkEngine five_nodes answering ([threshold] ++ failing :: [rerank])
       numbering)
    [1; 2; 3; 4; 5]%nat a_query []
  = (Raised (UpstreamFailure "postprocessor"), [])
  ∧ (retriever_retrieve five_nodes a_query = Returned [1; 2; 3; 4; 5]%nat →
     retrieve
       (mkEngine five_nodes answering ([threshold] ++ failing :: [rerank])
          numbering)
       a_query []
     = (Raised (UpstreamFailure "postprocessor"), [])).
Proof.
  apply (raising_postprocessor_ends_the_chain five_nodes answering numbering
           [threshold] [rerank] failing [1; 2; 3; 4; 5]%nat [3; 4; 5]%nat
           a_query [] (UpstreamFailure "postprocessor"));
    reflexivity.
Defined.

Lemma from_args_default_pipeline_witness :
  from_args a_factory numbering five_nodes (Some answering) (Some a_context)
    None COMPACT None None None false false
  = from_args a_factory numbering five_nodes (Some answering)
      (Some a_context) None REFINE (Some tt) None None true true
  ∧ retrieve
      (from_args a_factory numbering five_nodes (Some answering)
         (Some a_context) None COMPACT None None None false false)
      a_query []
    = (Returned [1; 2; 3; 4; 5]%nat, [])
  ∧ _query
      (from_args a_factory numbering five_nodes (Some answering)
         (Some a_context) None COMPACT None None None false false)
      a_query []
    = (Returned "answer",
       [ EventStart QUERY (QUERY_STR "why?") "0";
         EventStart RETRIEVE NoPayload "1";
         EventEnd RETRIEVE (NODES [1; 2; 3; 4; 5]%nat) "1";
         EventEnd QUERY (RESPONSE "answer") "0" ]).
Proof.
  apply (from_args_default_pipeline unit a_factory numbering five_nodes
           answering a_context COMPACT REFINE None None None (Some tt) None
           None false false true true a_query [] [1; 2; 3; 4; 5]%nat
           "answer");
    reflexivity.
Defined.

End FurtherRuns.
